(** * The planner hooks of the hypertable extension (src/planner.c)

    A shallow embedding of [planner.c]: the plan-tree walker that redirects
    INSERTs on hypertables to chunks, the planning-completion hook
    [timescaledb_planner], the path-selection hook
    [timescaledb_set_rel_pathlist], and the installation of both hooks.

    Conventions of the embedding.
    - C [int], [Index] and [Oid] values are [Z].
    - A pointer into an array owned by the host planner ([RelOptInfo *],
      [RangeTblEntry *]) is the index of its target in that array; reading
      through a pointer with no target aborts with [BadAccess].
    - A slot [Plan **] is passed as the node it holds and returned as the node
      it holds afterwards.
    - [ereport(ERROR, ...)] leaves the function at once; the state reached at
      that moment is kept next to the error. *)

From stdpp Require Import gmap strings.
From Stdlib Require Import ZArith Ascii.

Set Default Proof Using "Type".
Set Warnings "-register-all".

(** ** Host data structures *)

Abbreviation Oid := Z (only parsing).

Definition InvalidOid : Oid := 0%Z.

Definition OidIsValid (objectId : Oid) : bool :=
  negb (objectId =? InvalidOid)%Z.

Inductive CmdType : Type :=
| CMD_UNKNOWN | CMD_SELECT | CMD_UPDATE | CMD_INSERT | CMD_DELETE
| CMD_UTILITY | CMD_NOTHING.

Inductive OnConflictAction : Type :=
| ONCONFLICT_NONE | ONCONFLICT_NOTHING | ONCONFLICT_UPDATE.

Record OnConflictExpr : Type := {
  action : OnConflictAction;
  constraint : Oid             (* InvalidOid unless ON CONSTRAINT is used *)
}.

Record Query : Type := {
  commandType : CmdType;
  resultRelation : Z;          (* rtable index of the write target, 0 if none *)
  onConflict : option OnConflictExpr
}.

Inductive RTEKind : Type :=
| RTE_RELATION | RTE_SUBQUERY | RTE_JOIN | RTE_FUNCTION | RTE_VALUES | RTE_CTE.

Definition RELKIND_RELATION : ascii := "r"%char.

Record RangeTblEntry : Type := {
  relid : Oid;
  relkind : ascii;
  inh : bool
}.

(** [rt_fetch(rti, rtable)] is [list_nth(rtable, rti - 1)]; an index outside
    the list has no entry. *)
Definition rt_fetch (rangetable_index : Z) (rangetable : list RangeTblEntry)
  : option RangeTblEntry :=
  if (0 <? rangetable_index)%Z
  then rangetable !! Z.to_nat (rangetable_index - 1)
  else None.

(** ** The hypertable cache *)

Record Hypertable : Type := {
  ht_id : Z;
  main_table_relid : Oid
}.

(** Modelled from the spec: the hypertable cache ([hypertable_cache.h]) is
    not part of this file.  A pinned [Cache *] is the catalog as it was when
    it was pinned, a finite map from table identifiers to hypertables, and
    "lookup(handle, table_id) -> PartitionedTable | not_found" reads it. *)
Abbreviation Cache := (gmap Z Hypertable) (only parsing).

Definition hypertable_cache_get_entry (hcache : Cache) (relid : Oid)
  : option Hypertable :=
  hcache !! relid.

(** ** Plan trees *)

Inductive PlanTag : Type :=
| T_Result | T_Append | T_SeqScan | T_IndexScan | T_ValuesScan
| T_SubqueryScan | T_Sort | T_Limit.

(** A plan node is an insert/update/delete operator, one of the two custom
    scan nodes this extension builds, or any other host node with its
    children. *)
Inductive Plan : Type :=
| ModifyTable (operation : CmdType) (resultRelations : list Z)
              (plans : list Plan)
| ChunkDispatch (subplan : Plan) (rti : Z) (hypertable_relid : Oid)
                (parse : Query)
| HypertableInsert (mt : Plan)
| HostPlan (type : PlanTag) (children : list Plan).

(** Modelled from the spec: [chunk_dispatch_plan_create] is defined in
    [chunk_dispatch_plan.c].  It builds "a newly constructed Row Router node
    whose child is the original subplan, and which is configured with: the
    target Partitioned Table identifier, the result-relation index, and the
    full statement". *)
Definition chunk_dispatch_plan_create
    (subplan : Plan) (rti : Z) (hypertable_relid : Oid) (parse : Query) : Plan :=
  ChunkDispatch subplan rti hypertable_relid parse.

(** Modelled from the spec: [hypertable_insert_plan_create] is defined in
    [hypertable_insert.c].  It builds "an Insert Wrapper node whose sole child
    is the (now-modified) insert operator". *)
Definition hypertable_insert_plan_create (mt : Plan) : Plan :=
  HypertableInsert mt.

Record PlannedStmt : Type := {
  planTree : Plan;
  rtable : list RangeTblEntry;
  subplans : list Plan
}.

(** ** Errors *)

Inductive SqlState : Type :=
| ERRCODE_FEATURE_NOT_SUPPORTED
| ERRCODE_INTERNAL_ERROR.

Record ErrorData : Type := {
  sqlerrcode : SqlState;
  message : string;
  hint : string
}.

Inductive Failure : Type :=
| ERROR (edata : ErrorData)    (* ereport(ERROR, ...) *)
| BadAccess.                   (* a read through a pointer or index with no target *)

Inductive Outcome (A : Type) : Type :=
| Return (a : A)
| Abort (f : Failure).

Arguments Return {A} a.
Arguments Abort {A} f.

Definition on_conflict_constraint_error : ErrorData :=
  {| sqlerrcode := ERRCODE_FEATURE_NOT_SUPPORTED;
     message := "Hypertables do not support ON CONFLICT statements that reference constraints";
     hint := "Use column names to infer indexes instead." |}.

(** ** [modifytable_plan_walker] *)

Record ModifyTableWalkerCtx : Type := {
  ctx_parse : Query;
  ctx_hcache : Cache;
  ctx_rtable : list RangeTblEntry
}.

(** The [forboth] loop of [modifytable_plan_walker] over the subplan slots and
    the result relations; it stops at the end of the shorter list.  The result
    is the content of the slots when the loop is left, and either the final
    value of [hypertable_found] or the failure that left it. *)
Fixpoint forboth_plans_resultRelations
    (ctx : ModifyTableWalkerCtx) (plans : list Plan) (resultRelations : list Z)
    (hypertable_found : bool) : list Plan * Outcome bool :=
  match plans, resultRelations with
  | subplan :: plans_rest, rti :: rels_rest =>
      match rt_fetch rti (ctx_rtable ctx) with
      | None => (plans, Abort BadAccess)
      | Some rte =>
          match hypertable_cache_get_entry (ctx_hcache ctx) (relid rte) with
          | Some ht =>
              if match onConflict (ctx_parse ctx) with
                 | Some oc => negb (constraint oc =? InvalidOid)%Z
                 | None => false
                 end
              then (plans, Abort (ERROR on_conflict_constraint_error))
              else
                let '(rest, r) :=
                  forboth_plans_resultRelations ctx plans_rest rels_rest true in
                (chunk_dispatch_plan_create subplan rti (relid rte) (ctx_parse ctx)
                   :: rest, r)
          | None =>
              let '(rest, r) :=
                forboth_plans_resultRelations ctx plans_rest rels_rest
                  hypertable_found in
              (subplan :: rest, r)
          end
      end
  | _, _ => (plans, Return hypertable_found)
  end.

Definition modifytable_plan_walker (ctx : ModifyTableWalkerCtx) (plan : Plan)
  : Plan * Outcome unit :=
  match plan with
  | ModifyTable operation resultRelations plans =>
      match operation with
      | CMD_INSERT =>
          let '(plans', r) :=
            forboth_plans_resultRelations ctx plans resultRelations false in
          let mt := ModifyTable operation resultRelations plans' in
          match r with
          | Return hypertable_found =>
              if hypertable_found
              then (hypertable_insert_plan_create mt, Return tt)
              else (mt, Return tt)
          | Abort f => (mt, Abort f)
          end
      | _ => (plan, Return tt)
      end
  | _ => (plan, Return tt)
  end.

(** Modelled from the spec: [planned_stmt_walker] is defined in
    [planner_utils.c], "a generic tree-walk utility parameterized by a visitor
    callback" that can "iterate and replace child-node slots of arbitrary node
    types by reference".  The children of a node are walked before the visitor
    is applied to the slot of the node itself, so a rewritten subtree is not
    entered again.  An error raised by the visitor leaves the walk. *)
Fixpoint plantree_walker (walker : Plan -> Plan * Outcome unit) (plan : Plan)
  : Outcome Plan :=
  let walk_slots :=
    fix walk_slots (slots : list Plan) : Outcome (list Plan) :=
      match slots with
      | [] => Return []
      | child :: rest =>
          match plantree_walker walker child with
          | Return child' =>
              match walk_slots rest with
              | Return rest' => Return (child' :: rest')
              | Abort f => Abort f
              end
          | Abort f => Abort f
          end
      end in
  let visit (node : Plan) : Outcome Plan :=
    match walker node with
    | (node', Return _) => Return node'
    | (_, Abort f) => Abort f
    end in
  match plan with
  | ModifyTable operation resultRelations plans =>
      match walk_slots plans with
      | Return plans' => visit (ModifyTable operation resultRelations plans')
      | Abort f => Abort f
      end
  | ChunkDispatch subplan rti hypertable_relid parse =>
      match plantree_walker walker subplan with
      | Return subplan' => visit (ChunkDispatch subplan' rti hypertable_relid parse)
      | Abort f => Abort f
      end
  | HypertableInsert mt =>
      match plantree_walker walker mt with
      | Return mt' => visit (HypertableInsert mt')
      | Abort f => Abort f
      end
  | HostPlan type children =>
      match walk_slots children with
      | Return children' => visit (HostPlan type children')
      | Abort f => Abort f
      end
  end.

Fixpoint plantree_walk_subplans (walker : Plan -> Plan * Outcome unit)
    (slots : list Plan) : Outcome (list Plan) :=
  match slots with
  | [] => Return []
  | child :: rest =>
      match plantree_walker walker child with
      | Return child' =>
          match plantree_walk_subplans walker rest with
          | Return rest' => Return (child' :: rest')
          | Abort f => Abort f
          end
      | Abort f => Abort f
      end
  end.

Definition planned_stmt_walker (stmt : PlannedStmt)
    (walker : Plan -> Plan * Outcome unit) : Outcome PlannedStmt :=
  match plantree_walker walker (planTree stmt) with
  | Return planTree' =>
      match plantree_walk_subplans walker (subplans stmt) with
      | Return subplans' =>
          Return {| planTree := planTree';
                    rtable := rtable stmt;
                    subplans := subplans' |}
      | Abort f => Abort f
      end
  | Abort f => Abort f
  end.

(** ** Paths and planner state *)

Inductive PathTag : Type :=
| T_Path | T_IndexPath | T_BitmapHeapPath | T_AppendPath | T_MergeAppendPath
| T_ResultPath | T_CustomPath.

Inductive Expr : Type :=
| Const (value : Z)
| Var (varno varattno : Z)
| FuncExpr (funcid : Oid) (args : list Expr)
| OpExpr (opno : Oid) (args : list Expr).

Record RestrictInfo : Type := {
  clause : Expr
}.

(** A path is a path of the host engine, which knows the relation it was
    built for, or the custom path this extension wraps around one; the
    wrapper belongs to the relation of the path inside. *)
Inductive Path : Type :=
| HostPath (pathtype : PathTag) (path_parent : Z) (total_cost : Z)
| ConstraintAwareAppendPath (ht : Hypertable) (subpath : Path).

Definition nodeTag (path : Path) : PathTag :=
  match path with
  | HostPath pathtype _ _ => pathtype
  | ConstraintAwareAppendPath _ _ => T_CustomPath
  end.

Fixpoint parent (path : Path) : Z :=
  match path with
  | HostPath _ path_parent _ => path_parent
  | ConstraintAwareAppendPath _ subpath => parent subpath
  end.

(** Modelled from the spec: [constraint_aware_append_path_create] is defined
    in [constraint_aware_append.c].  It does "wrap the path in a decorator that
    defers final partition exclusion to execution time". *)
Definition constraint_aware_append_path_create (ht : Hypertable) (path : Path)
  : Path :=
  ConstraintAwareAppendPath ht path.

Inductive RelOptKind : Type :=
| RELOPT_BASEREL | RELOPT_JOINREL | RELOPT_OTHER_MEMBER_REL
| RELOPT_UPPER_REL | RELOPT_DEADREL.

Record RelOptInfo : Type := {
  reloptkind : RelOptKind;
  rtekind : RTEKind;
  baserestrictinfo : list RestrictInfo;
  pathlist : list Path
}.

Record AppendRelInfo : Type := {
  parent_relid : Z;
  child_relid : Z;
  parent_reloid : Oid
}.

Record PlannerInfo : Type := {
  parse : Query;
  simple_rel_array : gmap Z RelOptInfo;
  simple_rte_array : gmap Z RangeTblEntry;
  append_rel_list : list AppendRelInfo
}.

Inductive ConstraintExclusionType : Type :=
| CONSTRAINT_EXCLUSION_OFF | CONSTRAINT_EXCLUSION_ON
| CONSTRAINT_EXCLUSION_PARTITION.

#[global] Instance CmdType_eq_dec : EqDecision CmdType.
Proof. solve_decision. Defined.
#[global] Instance RTEKind_eq_dec : EqDecision RTEKind.
Proof. solve_decision. Defined.
#[global] Instance RelOptKind_eq_dec : EqDecision RelOptKind.
Proof. solve_decision. Defined.
#[global] Instance ConstraintExclusionType_eq_dec :
  EqDecision ConstraintExclusionType.
Proof. solve_decision. Defined.

(** ** Process state *)

(** The values a hook variable can hold: the address of this extension's
    implementation, or of a function of the host or of another extension. *)
Inductive planner_hook_type : Type :=
| timescaledb_planner_fn
| other_planner_fn (addr : positive).

Inductive set_rel_pathlist_hook_type : Type :=
| timescaledb_set_rel_pathlist_fn
| other_set_rel_pathlist_fn (addr : positive).

(** What this file asks of its collaborators, in the order it happens. *)
Inductive Event : Type :=
| EvCachePin                     (* hypertable_cache_pin() *)
| EvCacheRelease                 (* cache_release(hcache) *)
| EvSortTransform (rel : Z).     (* sort_transform_optimization(root, rel) *)

Record World : Type := {
  (* the hook variables of the host and the static variables of planner.c *)
  planner_hook : option planner_hook_type;
  set_rel_pathlist_hook : option set_rel_pathlist_hook_type;
  prev_planner_hook : option planner_hook_type;
  prev_set_rel_pathlist_hook : option set_rel_pathlist_hook_type;
  (* extension.c, guc.c and the host setting constraint_exclusion *)
  extension_loaded : bool;
  guc_disable_optimizations : bool;
  guc_optimize_non_hypertables : bool;
  guc_constraint_aware_append : bool;
  constraint_exclusion : ConstraintExclusionType;
  (* the current hypertable cache *)
  hypertable_cache_current : gmap Z Hypertable;
  (* the planner state [root] points to *)
  root : PlannerInfo;
  (* the calls made so far *)
  trace : list Event
}.

Definition set_hooks
    (ph : option planner_hook_type) (sh : option set_rel_pathlist_hook_type)
    (pph : option planner_hook_type)
    (psh : option set_rel_pathlist_hook_type) (w : World) : World :=
  {| planner_hook := ph;
     set_rel_pathlist_hook := sh;
     prev_planner_hook := pph;
     prev_set_rel_pathlist_hook := psh;
     extension_loaded := extension_loaded w;
     guc_disable_optimizations := guc_disable_optimizations w;
     guc_optimize_non_hypertables := guc_optimize_non_hypertables w;
     guc_constraint_aware_append := guc_constraint_aware_append w;
     constraint_exclusion := constraint_exclusion w;
     hypertable_cache_current := hypertable_cache_current w;
     root := root w;
     trace := trace w |}.

Definition set_planner_hook
    (v : option planner_hook_type) (w : World) : World :=
  set_hooks v (set_rel_pathlist_hook w) (prev_planner_hook w)
    (prev_set_rel_pathlist_hook w) w.

Definition set_set_rel_pathlist_hook
    (v : option set_rel_pathlist_hook_type) (w : World) : World :=
  set_hooks (planner_hook w) v (prev_planner_hook w)
    (prev_set_rel_pathlist_hook w) w.

Definition set_prev_planner_hook
    (v : option planner_hook_type) (w : World) : World :=
  set_hooks (planner_hook w) (set_rel_pathlist_hook w) v
    (prev_set_rel_pathlist_hook w) w.

Definition set_prev_set_rel_pathlist_hook
    (v : option set_rel_pathlist_hook_type) (w : World) : World :=
  set_hooks (planner_hook w) (set_rel_pathlist_hook w) (prev_planner_hook w)
    v w.

Definition set_root (r : PlannerInfo) (w : World) : World :=
  {| planner_hook := planner_hook w;
     set_rel_pathlist_hook := set_rel_pathlist_hook w;
     prev_planner_hook := prev_planner_hook w;
     prev_set_rel_pathlist_hook := prev_set_rel_pathlist_hook w;
     extension_loaded := extension_loaded w;
     guc_disable_optimizations := guc_disable_optimizations w;
     guc_optimize_non_hypertables := guc_optimize_non_hypertables w;
     guc_constraint_aware_append := guc_constraint_aware_append w;
     constraint_exclusion := constraint_exclusion w;
     hypertable_cache_current := hypertable_cache_current w;
     root := r;
     trace := trace w |}.

Definition log (e : Event) (w : World) : World :=
  {| planner_hook := planner_hook w;
     set_rel_pathlist_hook := set_rel_pathlist_hook w;
     prev_planner_hook := prev_planner_hook w;
     prev_set_rel_pathlist_hook := prev_set_rel_pathlist_hook w;
     extension_loaded := extension_loaded w;
     guc_disable_optimizations := guc_disable_optimizations w;
     guc_optimize_non_hypertables := guc_optimize_non_hypertables w;
     guc_constraint_aware_append := guc_constraint_aware_append w;
     constraint_exclusion := constraint_exclusion w;
     hypertable_cache_current := hypertable_cache_current w;
     root := root w;
     trace := trace w ++ [e] |}.

Definition set_rel (rel : Z) (r : RelOptInfo) (p : PlannerInfo)
  : PlannerInfo :=
  {| parse := parse p;
     simple_rel_array := <[rel := r]> (simple_rel_array p);
     simple_rte_array := simple_rte_array p;
     append_rel_list := append_rel_list p |}.

Definition set_pathlist (l : list Path) (r : RelOptInfo) : RelOptInfo :=
  {| reloptkind := reloptkind r;
     rtekind := rtekind r;
     baserestrictinfo := baserestrictinfo r;
     pathlist := l |}.

(** ** Computations: state and failure *)

Definition M (A : Type) : Type := World -> Outcome A * World.

Definition ret {A} (a : A) : M A := fun w => (Return a, w).

Definition bind {A B} (m : M A) (k : A -> M B) : M B :=
  fun w =>
    match m w with
    | (Return a, w') => k a w'
    | (Abort f, w') => (Abort f, w')
    end.

Declare Scope planner_scope.
Delimit Scope planner_scope with planner.
Notation "x <- m ;; k" := (bind m (fun x => k))
  (at level 100, m at next level, right associativity) : planner_scope.
Notation "m ;; k" := (bind m (fun _ => k))
  (at level 100, right associativity) : planner_scope.
Open Scope planner_scope.

Definition gets {A} (f : World -> A) : M A := fun w => (Return (f w), w).

Definition modify (f : World -> World) : M unit := fun w => (Return tt, f w).

Definition lift_outcome {A} (o : Outcome A) : M A := fun w => (o, w).

Definition deref {A} (o : option A) : M A :=
  match o with
  | Some a => ret a
  | None => lift_outcome (Abort BadAccess)
  end.

(** Modelled from the spec: [extension_is_loaded] is defined in
    [extension.c]; here it reads whether the extension is loaded. *)
Definition extension_is_loaded : M bool := gets extension_loaded.

(** Modelled from the spec: "pin() -> handle / release(handle): scoped
    acquisition".  Pinning hands out the current cache and releasing gives the
    handle back; both calls are recorded. *)
Definition hypertable_cache_pin : M Cache :=
  modify (log EvCachePin) ;; gets hypertable_cache_current.

Definition cache_release (hcache : Cache) : M unit :=
  modify (log EvCacheRelease).

(** ** The hooks *)

Abbreviation ParamListInfo := (list Z) (only parsing).

Section Planner.

(** The host engine and the other parts of the extension, as this file
    uses them. *)

(** What calling through a planner hook pointer does. *)
Variable invoke_planner_hook :
  planner_hook_type -> Query -> Z -> ParamListInfo -> M PlannedStmt.

Variable standard_planner : Query -> Z -> ParamListInfo -> M PlannedStmt.

(** What calling through a path-list hook pointer does; [rel] and [rte] are
    pointers into [root->simple_rel_array] and [root->simple_rte_array]. *)
Variable invoke_set_rel_pathlist_hook :
  set_rel_pathlist_hook_type -> Z -> Z -> Z -> M unit.

(** The host macro [IS_DUMMY_REL] and the host function
    [contain_mutable_functions]. *)
Variable IS_DUMMY_REL : RelOptInfo -> bool.
Variable contain_mutable_functions : Expr -> bool.

(** What [sort_transform_optimization] does to the relation it is given. *)
Variable sort_transform : PlannerInfo -> RelOptInfo -> RelOptInfo.

(** Modelled from the spec: [sort_transform_optimization] is declared
    [extern] here and defined elsewhere; it is the "secondary plan-shape
    transform (sort-transform)" that "is applied to" one relation.  It
    rewrites the relation [rel] points to, and the call is recorded. *)
Definition sort_transform_optimization (rel : Z) : M unit :=
  p <- gets root ;;
  r <- deref (simple_rel_array p !! rel) ;;
  modify (set_root (set_rel rel (sort_transform p r) p)) ;;
  modify (log (EvSortTransform rel)).

(** *** [timescaledb_planner] *)

Definition timescaledb_planner
    (parse : Query) (cursor_opts : Z) (bound_params : ParamListInfo)
  : M PlannedStmt :=
  prev <- gets prev_planner_hook ;;
  plan_stmt <-
    match prev with
    | Some hook =>
        (* Call any earlier hooks *)
        invoke_planner_hook hook parse cursor_opts bound_params
    | None =>
        (* Call the standard planner *)
        standard_planner parse cursor_opts bound_params
    end ;;
  loaded <- extension_is_loaded ;;
  if loaded : bool then
    hcache <- hypertable_cache_pin ;;
    let ctx := {| ctx_parse := parse;
                  ctx_hcache := hcache;
                  ctx_rtable := rtable plan_stmt |} in
    plan_stmt' <-
      lift_outcome (planned_stmt_walker plan_stmt (modifytable_plan_walker ctx)) ;;
    cache_release hcache ;;
    ret plan_stmt'
  else
    ret plan_stmt.

(** *** [timescaledb_set_rel_pathlist] *)

Definition should_optimize_query (ht : option Hypertable) : M bool :=
  disable <- gets guc_disable_optimizations ;;
  non_hypertables <- gets guc_optimize_non_hypertables ;;
  ret (negb disable && (non_hypertables || bool_decide (is_Some ht))).

Definition should_optimize_append (path : Path) : M bool :=
  let rel := parent path in
  enabled <- gets guc_constraint_aware_append ;;
  exclusion <- gets constraint_exclusion ;;
  if negb enabled || bool_decide (exclusion = CONSTRAINT_EXCLUSION_OFF)
  then ret false
  else
    (* If there are clauses that have mutable functions, this path is ripe
       for execution-time optimization *)
    p <- gets root ;;
    r <- deref (simple_rel_array p !! rel) ;;
    ret (existsb (fun rinfo => contain_mutable_functions (clause rinfo))
           (baserestrictinfo r)).

Definition is_append_child (rel : RelOptInfo) (rte : RangeTblEntry) : bool :=
  bool_decide (reloptkind rel = RELOPT_OTHER_MEMBER_REL) &&
  bool_decide (inh rte = false) &&
  bool_decide (rtekind rel = RTE_RELATION) &&
  bool_decide (relkind rte = RELKIND_RELATION).

Definition is_append_parent (rel : RelOptInfo) (rte : RangeTblEntry) : bool :=
  bool_decide (reloptkind rel = RELOPT_BASEREL) &&
  bool_decide (inh rte = true) &&
  bool_decide (rtekind rel = RTE_RELATION) &&
  bool_decide (relkind rte = RELKIND_RELATION).

(** The loop over [root->append_rel_list] (lines 275-289): the transform is
    applied to every child relation whose parent is the table [reloid]. *)
Fixpoint foreach_append_rel (reloid : Oid) (l : list AppendRelInfo) : M unit :=
  match l with
  | [] => ret tt
  | appinfo :: rest =>
      (if bool_decide (parent_reloid appinfo <> reloid)
       then ret tt
       else
         let siblingrel := child_relid appinfo in
         sort_transform_optimization siblingrel) ;;
      foreach_append_rel reloid rest
  end.

(** The loop over [rel->pathlist] (lines 305-319); the result is the content
    of the list cells after the loop. *)
Fixpoint foreach_path (ht : Hypertable) (l : list Path) : M (list Path) :=
  match l with
  | [] => ret []
  | path :: rest =>
      path' <-
        match nodeTag path with
        | T_AppendPath | T_MergeAppendPath =>
            optimize <- should_optimize_append path ;;
            if optimize : bool
            then ret (constraint_aware_append_path_create ht path)
            else ret path
        | _ => ret path
        end ;;
      rest' <- foreach_path ht rest ;;
      ret (path' :: rest')
  end.

(** Lines 257-290: where the sort transform is applied. *)
Definition apply_sort_transform
    (ht : option Hypertable) (rel rte : Z) : M unit :=
  non_hypertables <- gets guc_optimize_non_hypertables ;;
  if non_hypertables : bool then
    (* if optimizing all tables, apply optimization to any table *)
    sort_transform_optimization rel
  else
    match ht with
    | None => ret tt
    | Some _ =>
        p <- gets root ;;
        r <- deref (simple_rel_array p !! rel) ;;
        e <- deref (simple_rte_array p !! rte) ;;
        if is_append_child r e
        then foreach_append_rel (relid e) (append_rel_list p)
        else ret tt
    end.

(** Lines 292-320: where append paths get the constraint-aware wrapper. *)
Definition apply_constraint_aware_append
    (ht : option Hypertable) (rel rte : Z) : M unit :=
  match ht with
  | None => ret tt
  | Some h =>
      p <- gets root ;;
      r <- deref (simple_rel_array p !! rel) ;;
      e <- deref (simple_rte_array p !! rte) ;;
      if is_append_parent r e &&
         (* Do not optimize result relations (INSERT, UPDATE, DELETE) *)
         (0 =? resultRelation (parse p))%Z
      then
        pathlist' <- foreach_path h (pathlist r) ;;
        modify (set_root (set_rel rel (set_pathlist pathlist' r) p))
      else ret tt
  end.

Definition timescaledb_set_rel_pathlist (rel rti rte : Z) : M unit :=
  prev <- gets prev_set_rel_pathlist_hook ;;
  match prev with
  | Some hook => invoke_set_rel_pathlist_hook hook rel rti rte
  | None => ret tt
  end ;;
  loaded <- extension_is_loaded ;;
  if negb loaded then ret tt else
  p <- gets root ;;
  r <- deref (simple_rel_array p !! rel) ;;
  if IS_DUMMY_REL r then ret tt else
  e <- deref (simple_rte_array p !! rte) ;;
  if negb (OidIsValid (relid e)) then ret tt else
  (* quick abort if only optimizing hypertables *)
  non_hypertables <- gets guc_optimize_non_hypertables ;;
  if negb non_hypertables && negb (is_append_parent r e || is_append_child r e)
  then ret tt else
  hcache <- hypertable_cache_pin ;;
  let ht := hypertable_cache_get_entry hcache (relid e) in
  optimize <- should_optimize_query ht ;;
  (if optimize : bool
   then
     apply_sort_transform ht rel rte ;;
     apply_constraint_aware_append ht rel rte
   else ret tt (* goto out_release *)) ;;
  cache_release hcache.

(** *** Installing and removing the hooks *)

Definition _planner_init : M unit :=
  hook <- gets planner_hook ;;
  modify (set_prev_planner_hook hook) ;;
  modify (set_planner_hook (Some timescaledb_planner_fn)) ;;
  hook <- gets set_rel_pathlist_hook ;;
  modify (set_prev_set_rel_pathlist_hook hook) ;;
  modify (set_set_rel_pathlist_hook (Some timescaledb_set_rel_pathlist_fn)).

Definition _planner_fini : M unit :=
  hook <- gets prev_planner_hook ;;
  modify (set_planner_hook hook) ;;
  hook <- gets prev_set_rel_pathlist_hook ;;
  modify (set_set_rel_pathlist_hook hook).

(** *** Vocabulary of the statements *)

(** Lines 151-160: the plan of the chained hook, or of the standard planner
    when no hook was installed before. *)
Definition previous_planner
    (parse : Query) (cursor_opts : Z) (bound_params : ParamListInfo)
  : M PlannedStmt :=
  prev <- gets prev_planner_hook ;;
  match prev with
  | Some hook => invoke_planner_hook hook parse cursor_opts bound_params
  | None => standard_planner parse cursor_opts bound_params
  end.

(** Lines 241-242: the chained path-list hook, if there is one. *)
Definition previous_set_rel_pathlist (rel rti rte : Z) : M unit :=
  prev <- gets prev_set_rel_pathlist_hook ;;
  match prev with
  | Some hook => invoke_set_rel_pathlist_hook hook rel rti rte
  | None => ret tt
  end.

End Planner.

(** ** Vocabulary of the statements *)

(** Every result relation that is paired with a subplan is an index of the
    range table. *)
Definition result_relations_in_range
    (ctx : ModifyTableWalkerCtx) (plans : list Plan) (resultRelations : list Z)
  : Prop :=
  forall i subplan rti,
    plans !! i = Some subplan -> resultRelations !! i = Some rti ->
    is_Some (rt_fetch rti (ctx_rtable ctx)).

(** The statement has an ON CONFLICT clause whose target is a named
    constraint. *)
Definition names_conflict_constraint (parse : Query) : Prop :=
  exists oc, onConflict parse = Some oc /\ constraint oc <> InvalidOid.

(** The slots of an insert operator after the rewrite, pair by pair: a chunk
    dispatch node over the old subplan where the result relation is a
    hypertable, the old subplan elsewhere. *)
Fixpoint rewritten_slots
    (ctx : ModifyTableWalkerCtx) (plans : list Plan) (resultRelations : list Z)
  : list Plan :=
  match plans, resultRelations with
  | subplan :: plans_rest, rti :: rels_rest =>
      match rt_fetch rti (ctx_rtable ctx) with
      | Some rte =>
          match hypertable_cache_get_entry (ctx_hcache ctx) (relid rte) with
          | Some _ => ChunkDispatch subplan rti (relid rte) (ctx_parse ctx)
          | None => subplan
          end
      | None => subplan
      end :: rewritten_slots ctx plans_rest rels_rest
  | _, _ => plans
  end.

(** Some result relation that is paired with a subplan is a hypertable. *)
Fixpoint targets_hypertable
    (ctx : ModifyTableWalkerCtx) (plans : list Plan) (resultRelations : list Z)
  : bool :=
  match plans, resultRelations with
  | _ :: plans_rest, rti :: rels_rest =>
      match rt_fetch rti (ctx_rtable ctx) with
      | Some rte =>
          bool_decide
            (is_Some (hypertable_cache_get_entry (ctx_hcache ctx) (relid rte)))
      | None => false
      end || targets_hypertable ctx plans_rest rels_rest
  | _, _ => false
  end.

#[global] Instance Event_eq_dec : EqDecision Event.
Proof. solve_decision. Defined.

(** How often an event occurs in a trace. *)
Definition occurrences (e : Event) (t : list Event) : nat :=
  length (filter (fun x => x = e) t).

(** The child relations that [append_rel_list] puts under the table
    [reloid], in list order. *)
Definition children_of (reloid : Oid) (l : list AppendRelInfo) : list Z :=
  child_relid <$> filter (fun appinfo => parent_reloid appinfo = reloid) l.

(** The conditions under which a path of [rel] may get the constraint-aware
    wrapper. *)
Definition mutable_restriction
    (contain_mutable_functions : Expr -> bool) (r : RelOptInfo) : Prop :=
  exists rinfo,
    rinfo ∈ baserestrictinfo r /\
    contain_mutable_functions (clause rinfo) = true.

Definition is_append_tag (t : PathTag) : Prop :=
  t = T_AppendPath \/ t = T_MergeAppendPath.

#[global] Instance PathTag_eq_dec : EqDecision PathTag.
Proof. solve_decision. Defined.

(** The test the path loop makes on one path of a relation [r]: the path is
    an Append or MergeAppend path, constraint-aware append is switched on,
    constraint exclusion is not off, and some restriction clause of [r] has a
    mutable function. *)
Definition append_eligible
    (contain_mutable_functions : Expr -> bool) (w : World) (r : RelOptInfo)
    (path : Path) : bool :=
  bool_decide (is_append_tag (nodeTag path)) &&
  guc_constraint_aware_append w &&
  bool_decide (constraint_exclusion w <> CONSTRAINT_EXCLUSION_OFF) &&
  existsb (fun rinfo => contain_mutable_functions (clause rinfo))
    (baserestrictinfo r).

(** The state after [sort_transform_optimization] has been called on the
    relations [rels], one after the other. *)
Definition transform_all
    (sort_transform : PlannerInfo -> RelOptInfo -> RelOptInfo)
    (rels : list Z) (w : World) : World :=
  foldl
    (fun w rel =>
       match simple_rel_array (root w) !! rel with
       | Some r =>
           log (EvSortTransform rel)
             (set_root (set_rel rel (sort_transform (root w) r) (root w)) w)
       | None => w
       end)
    w rels.

(** A call of the path-list hook in state [w] comes to its path loop (line
    292) in state [w1], with [ht] the hypertable it has looked up for the
    table of the relation: the chained hook has returned, the extension is
    loaded, the relation is not dummy and names a table, the quick abort is
    not taken, [should_optimize_query] agrees, and the sort transform stage
    (lines 257-290) has returned, leaving [w1]. *)
Definition reaches_path_loop
    (invoke_set_rel_pathlist_hook :
       set_rel_pathlist_hook_type -> Z -> Z -> Z -> M unit)
    (IS_DUMMY_REL : RelOptInfo -> bool)
    (sort_transform : PlannerInfo -> RelOptInfo -> RelOptInfo)
    (rel rti rte : Z) (w : World) (ht : option Hypertable) (w1 : World)
  : Prop :=
  exists w0 r e,
    previous_set_rel_pathlist invoke_set_rel_pathlist_hook rel rti rte w =
      (Return tt, w0) /\
    extension_loaded w0 = true /\
    simple_rel_array (root w0) !! rel = Some r /\
    IS_DUMMY_REL r = false /\
    simple_rte_array (root w0) !! rte = Some e /\
    relid e <> InvalidOid /\
    (guc_optimize_non_hypertables w0 = true \/
     is_append_parent r e = true \/ is_append_child r e = true) /\
    ht = hypertable_cache_get_entry (hypertable_cache_current w0) (relid e) /\
    guc_disable_optimizations w0 = false /\
    (guc_optimize_non_hypertables w0 = true \/ is_Some ht) /\
    apply_sort_transform sort_transform ht rel rte (log EvCachePin w0) =
      (Return tt, w1).

(** ** Example statements

    A catalog with one hypertable, [conditions], and a plain table,
    [devices]. *)
Module Examples.

Definition conditions_oid : Oid := 16384%Z.
Definition devices_oid : Oid := 16500%Z.

Definition conditions : Hypertable :=
  {| ht_id := 1; main_table_relid := conditions_oid |}.

Definition catalog : gmap Z Hypertable := {[ conditions_oid := conditions ]}.

Definition table_rte (oid : Oid) (inherits : bool) : RangeTblEntry :=
  {| relid := oid; relkind := RELKIND_RELATION; inh := inherits |}.

(** *** Inserts: range table [1 = conditions, 2 = devices] *)

Definition insert_rtable : list RangeTblEntry :=
  [table_rte conditions_oid false; table_rte devices_oid false].

Definition insert_query : Query :=
  {| commandType := CMD_INSERT; resultRelation := 1; onConflict := None |}.

(** INSERT ... ON CONFLICT ON CONSTRAINT conditions_pkey DO NOTHING *)
Definition insert_on_constraint_query : Query :=
  {| commandType := CMD_INSERT;
     resultRelation := 1;
     onConflict :=
       Some {| action := ONCONFLICT_NOTHING; constraint := 16390 |} |}.

Definition update_query : Query :=
  {| commandType := CMD_UPDATE; resultRelation := 1; onConflict := None |}.

Definition walker_ctx (q : Query) : ModifyTableWalkerCtx :=
  {| ctx_parse := q; ctx_hcache := catalog; ctx_rtable := insert_rtable |}.

Definition values_scan : Plan := HostPlan T_ValuesScan [].
Definition result_plan : Plan := HostPlan T_Result [].
Definition seq_scan : Plan := HostPlan T_SeqScan [].

Definition insert_conditions : Plan :=
  ModifyTable CMD_INSERT [1%Z] [values_scan].

Definition insert_devices : Plan :=
  ModifyTable CMD_INSERT [2%Z] [values_scan].

Definition insert_both : Plan :=
  ModifyTable CMD_INSERT [2%Z; 1%Z] [result_plan; values_scan].

Definition update_conditions : Plan :=
  ModifyTable CMD_UPDATE [1%Z] [seq_scan].

Definition stmt_of (plan : Plan) : PlannedStmt :=
  {| planTree := plan; rtable := insert_rtable; subplans := [] |}.

(** *** Scans: relations [1 = conditions] (the append parent),
    [2 = conditions] again as the first member of its own append relation,
    [3] and [4] its chunks, [5 = devices] *)

Definition now_oid : Oid := 1299%Z.

(** time > now() *)
Definition time_after_now : RestrictInfo :=
  {| clause := OpExpr 1324 [Var 1 1; FuncExpr now_oid []] |}.

(** time > 100 *)
Definition time_after_constant : RestrictInfo :=
  {| clause := OpExpr 1324 [Var 1 1; Const 100] |}.

Definition append_path : Path := HostPath T_AppendPath 1 100.
Definition merge_append_path : Path := HostPath T_MergeAppendPath 1 120.
Definition result_path : Path := HostPath T_ResultPath 1 0.

Definition parent_rel : RelOptInfo :=
  {| reloptkind := RELOPT_BASEREL;
     rtekind := RTE_RELATION;
     baserestrictinfo := [time_after_constant; time_after_now];
     pathlist := [append_path; result_path; merge_append_path] |}.

Definition member_rel (rel : Z) : RelOptInfo :=
  {| reloptkind := RELOPT_OTHER_MEMBER_REL;
     rtekind := RTE_RELATION;
     baserestrictinfo := [time_after_constant; time_after_now];
     pathlist := [HostPath T_Path rel 10] |}.

Definition devices_rel : RelOptInfo :=
  {| reloptkind := RELOPT_BASEREL;
     rtekind := RTE_RELATION;
     baserestrictinfo := [];
     pathlist := [HostPath T_Path 5 10] |}.

Definition member_of_conditions (child : Z) : AppendRelInfo :=
  {| parent_relid := 1; child_relid := child;
     parent_reloid := conditions_oid |}.

(** The planner state of a statement that scans [conditions] and whose
    result relation is [target] ([0]: a SELECT; [5]: e.g.
    UPDATE devices ... FROM conditions WHERE time > now()). *)
Definition scan_root (command : CmdType) (target : Z) : PlannerInfo :=
  {| parse := {| commandType := command;
                 resultRelation := target;
                 onConflict := None |};
     simple_rel_array :=
       <[1%Z := parent_rel]> (<[2%Z := member_rel 2]> (<[3%Z := member_rel 3]>
         (<[4%Z := member_rel 4]> (<[5%Z := devices_rel]> ∅))));
     simple_rte_array :=
       <[1%Z := table_rte conditions_oid true]>
         (<[2%Z := table_rte conditions_oid false]>
         (<[3%Z := table_rte 16385 false]>
         (<[4%Z := table_rte 16386 false]>
         (<[5%Z := table_rte devices_oid false]> ∅))));
     append_rel_list :=
       [member_of_conditions 2; member_of_conditions 3;
        member_of_conditions 4] |}.

Definition empty_root : PlannerInfo :=
  {| parse := insert_query;
     simple_rel_array := ∅;
     simple_rte_array := ∅;
     append_rel_list := [] |}.

(** A process with no earlier hooks and the default settings. *)
Definition world (loaded : bool) (p : PlannerInfo) : World :=
  {| planner_hook := Some timescaledb_planner_fn;
     set_rel_pathlist_hook := Some timescaledb_set_rel_pathlist_fn;
     prev_planner_hook := None;
     prev_set_rel_pathlist_hook := None;
     extension_loaded := loaded;
     guc_disable_optimizations := false;
     guc_optimize_non_hypertables := false;
     guc_constraint_aware_append := true;
     constraint_exclusion := CONSTRAINT_EXCLUSION_PARTITION;
     hypertable_cache_current := catalog;
     root := p;
     trace := [] |}.

(** *** The host *)

Definition no_planner_hook
  : planner_hook_type -> Query -> Z -> list Z -> M PlannedStmt :=
  fun _ _ _ _ => lift_outcome (Abort BadAccess).

Definition planner_giving (stmt : PlannedStmt)
  : Query -> Z -> list Z -> M PlannedStmt :=
  fun _ _ _ => ret stmt.

Definition no_set_rel_pathlist_hook
  : set_rel_pathlist_hook_type -> Z -> Z -> Z -> M unit :=
  fun _ _ _ _ => lift_outcome (Abort BadAccess).

Definition never_dummy (r : RelOptInfo) : bool := false.

(** Only [now()] is not immutable. *)
Fixpoint calls_now (e : Expr) : bool :=
  match e with
  | Const _ | Var _ _ => false
  | FuncExpr funcid args => (funcid =? now_oid)%Z || existsb calls_now args
  | OpExpr _ args => existsb calls_now args
  end.

(** The transform adds an index path to the relation. *)
Definition add_index_path (p : PlannerInfo) (r : RelOptInfo) : RelOptInfo :=
  set_pathlist
    (pathlist r ++
     match pathlist r with
     | path :: _ => [HostPath T_IndexPath (parent path) 5]
     | [] => []
     end) r.

(** The same process with other settings: whether all tables are optimized,
    and whether constraint-aware append is switched on. *)
Definition world_with (non_hypertables aware : bool) (p : PlannerInfo)
  : World :=
  {| planner_hook := Some timescaledb_planner_fn;
     set_rel_pathlist_hook := Some timescaledb_set_rel_pathlist_fn;
     prev_planner_hook := None;
     prev_set_rel_pathlist_hook := None;
     extension_loaded := true;
     guc_disable_optimizations := false;
     guc_optimize_non_hypertables := non_hypertables;
     guc_constraint_aware_append := aware;
     constraint_exclusion := CONSTRAINT_EXCLUSION_PARTITION;
     hypertable_cache_current := catalog;
     root := p;
     trace := [] |}.

End Examples.

(** ** The plan walker *)

Lemma in_range_tail ctx sp ps rti rs :
  result_relations_in_range ctx (sp :: ps) (rti :: rs) ->
  result_relations_in_range ctx ps rs.
Proof. intros H i s r Hs Hr. exact (H (S i) s r Hs Hr). Qed.

Lemma in_range_head ctx sp ps rti rs :
  result_relations_in_range ctx (sp :: ps) (rti :: rs) ->
  is_Some (rt_fetch rti (ctx_rtable ctx)).
Proof. intros H. exact (H 0%nat sp rti eq_refl eq_refl). Qed.

Lemma conflict_test_false parse :
  ~ names_conflict_constraint parse ->
  match onConflict parse with
  | Some oc => negb (constraint oc =? InvalidOid)%Z
  | None => false
  end = false.
Proof.
  intros H. destruct (onConflict parse) as [oc|] eqn:E; [|done].
  destruct (Z.eqb_spec (constraint oc) InvalidOid) as [|Hne]; [done|].
  exfalso. apply H. by exists oc.
Qed.

Lemma conflict_test_true parse :
  names_conflict_constraint parse ->
  match onConflict parse with
  | Some oc => negb (constraint oc =? InvalidOid)%Z
  | None => false
  end = true.
Proof.
  intros (oc & -> & Hne).
  by destruct (Z.eqb_spec (constraint oc) InvalidOid).
Qed.

Lemma forboth_rewrites ctx plans :
  ~ names_conflict_constraint (ctx_parse ctx) ->
  forall resultRelations hypertable_found,
    result_relations_in_range ctx plans resultRelations ->
    forboth_plans_resultRelations ctx plans resultRelations hypertable_found =
      (rewritten_slots ctx plans resultRelations,
       Return (hypertable_found || targets_hypertable ctx plans resultRelations)).
Proof.
  intros Hoc. induction plans as [|sp ps IH]; intros [|rti rs] found Hr; simpl;
    rewrite ?orb_false_r; try done.
  destruct (in_range_head _ _ _ _ _ Hr) as [rte ->].
  apply in_range_tail in Hr.
  destruct (hypertable_cache_get_entry _ _) as [ht|] eqn:Hht.
  - rewrite (conflict_test_false _ Hoc), (IH rs true Hr).
    rewrite bool_decide_true by eauto. simpl. by rewrite orb_true_r.
  - rewrite (IH rs found Hr). rewrite bool_decide_false by (by intros [??]). done.
Qed.

Lemma forboth_rejects ctx plans :
  names_conflict_constraint (ctx_parse ctx) ->
  forall resultRelations hypertable_found,
    result_relations_in_range ctx plans resultRelations ->
    targets_hypertable ctx plans resultRelations = true ->
    forboth_plans_resultRelations ctx plans resultRelations hypertable_found =
      (plans, Abort (ERROR on_conflict_constraint_error)).
Proof.
  intros Hoc. induction plans as [|sp ps IH]; intros [|rti rs] found Hr Ht;
    simpl in *; try done.
  destruct (in_range_head _ _ _ _ _ Hr) as [rte Hrte]. rewrite Hrte in *.
  apply in_range_tail in Hr.
  destruct (hypertable_cache_get_entry _ _) as [ht|] eqn:Hht.
  - by rewrite (conflict_test_true _ Hoc).
  - rewrite bool_decide_false in Ht by (by intros [??]). simpl in Ht.
    by rewrite (IH rs found Hr Ht).
Qed.

Lemma targets_hypertable_true ctx plans resultRelations i subplan rti rte ht :
  plans !! i = Some subplan -> resultRelations !! i = Some rti ->
  rt_fetch rti (ctx_rtable ctx) = Some rte ->
  hypertable_cache_get_entry (ctx_hcache ctx) (relid rte) = Some ht ->
  targets_hypertable ctx plans resultRelations = true.
Proof.
  revert resultRelations i.
  induction plans as [|sp ps IH]; intros [|r rs] [|i] Hp Hr Hf Hh;
    simpl in *; try done.
  - simplify_eq. rewrite Hf, Hh. by rewrite bool_decide_true by eauto.
  - rewrite (IH rs i Hp Hr Hf Hh). apply orb_true_r.
Qed.

Lemma targets_hypertable_false ctx plans resultRelations :
  (forall i subplan rti rte,
      plans !! i = Some subplan -> resultRelations !! i = Some rti ->
      rt_fetch rti (ctx_rtable ctx) = Some rte ->
      hypertable_cache_get_entry (ctx_hcache ctx) (relid rte) = None) ->
  targets_hypertable ctx plans resultRelations = false.
Proof.
  revert resultRelations.
  induction plans as [|sp ps IH]; intros [|r rs] H; simpl; try done.
  rewrite IH by (intros i s x e Hp Hr; exact (H (S i) s x e Hp Hr)).
  destruct (rt_fetch r _) as [rte|] eqn:Hf; [|done].
  rewrite (H 0%nat sp r rte eq_refl eq_refl Hf).
  by rewrite bool_decide_false by (by intros [??]).
Qed.

Lemma rewritten_slots_length ctx plans resultRelations :
  length (rewritten_slots ctx plans resultRelations) = length plans.
Proof.
  revert resultRelations.
  induction plans as [|sp ps IH]; intros [|r rs]; simpl; auto.
Qed.

Lemma rewritten_slots_pair ctx plans resultRelations i subplan rti rte :
  plans !! i = Some subplan -> resultRelations !! i = Some rti ->
  rt_fetch rti (ctx_rtable ctx) = Some rte ->
  rewritten_slots ctx plans resultRelations !! i =
    Some match hypertable_cache_get_entry (ctx_hcache ctx) (relid rte) with
         | Some _ => ChunkDispatch subplan rti (relid rte) (ctx_parse ctx)
         | None => subplan
         end.
Proof.
  revert resultRelations i.
  induction plans as [|sp ps IH]; intros [|r rs] [|i] Hp Hr Hf;
    simpl in *; try done.
  - simplify_eq. by rewrite Hf.
  - by apply IH.
Qed.

Lemma rewritten_slots_unpaired ctx plans resultRelations i subplan :
  plans !! i = Some subplan -> resultRelations !! i = None ->
  rewritten_slots ctx plans resultRelations !! i = Some subplan.
Proof.
  revert resultRelations i.
  induction plans as [|sp ps IH]; intros [|r rs] [|i] Hp Hr;
    simpl in *; try done.
  by apply IH.
Qed.

(** C10.  A ModifyTable node whose operation is not INSERT is left as it is by
    the walker, with all its subplan slots, whatever its result relations
    are: nothing is spliced in and nothing is wrapped around it. *)
Theorem walker_leaves_non_insert ctx operation resultRelations plans :
  operation <> CMD_INSERT ->
  modifytable_plan_walker ctx (ModifyTable operation resultRelations plans) =
    (ModifyTable operation resultRelations plans, Return tt).
Proof. by destruct operation. Qed.

(** C6.  An INSERT node all of whose result relations are looked up in the
    catalog and not found there is left as it is: no chunk dispatch node in
    any slot and no hypertable insert node around it. *)
Theorem walker_leaves_insert_without_hypertable ctx resultRelations plans :
  (forall i subplan rti,
      plans !! i = Some subplan -> resultRelations !! i = Some rti ->
      exists rte,
        rt_fetch rti (ctx_rtable ctx) = Some rte /\
        hypertable_cache_get_entry (ctx_hcache ctx) (relid rte) = None) ->
  modifytable_plan_walker ctx (ModifyTable CMD_INSERT resultRelations plans) =
    (ModifyTable CMD_INSERT resultRelations plans, Return tt).
Proof.
  intros H. simpl.
  enough (forall found,
    forboth_plans_resultRelations ctx plans resultRelations found =
      (plans, Return found)) as -> by done.
  revert resultRelations H.
  induction plans as [|sp ps IH]; intros [|rti rs] H found; simpl; try done.
  destruct (H 0%nat sp rti eq_refl eq_refl) as (rte & -> & ->).
  by rewrite IH by (intros i s r Hs Hr; exact (H (S i) s r Hs Hr)).
Qed.

(** C2.  An INSERT node with a pair whose result relation is a hypertable, in
    a statement whose ON CONFLICT target is a named constraint, makes the
    walker raise the feature-not-supported error with the hint to use column
    names, and every subplan slot still holds what it held before. *)
Theorem walker_rejects_conflict_constraint
    ctx resultRelations plans i subplan rti rte ht :
  names_conflict_constraint (ctx_parse ctx) ->
  result_relations_in_range ctx plans resultRelations ->
  plans !! i = Some subplan -> resultRelations !! i = Some rti ->
  rt_fetch rti (ctx_rtable ctx) = Some rte ->
  hypertable_cache_get_entry (ctx_hcache ctx) (relid rte) = Some ht ->
  modifytable_plan_walker ctx (ModifyTable CMD_INSERT resultRelations plans) =
    (ModifyTable CMD_INSERT resultRelations plans,
     Abort (ERROR
       {| sqlerrcode := ERRCODE_FEATURE_NOT_SUPPORTED;
          message := "Hypertables do not support ON CONFLICT statements that reference constraints";
          hint := "Use column names to infer indexes instead." |})).
Proof.
  intros Hoc Hin Hp Hr Hf Hh. simpl.
  by rewrite (forboth_rejects ctx plans Hoc resultRelations false Hin
                (targets_hypertable_true _ _ _ _ _ _ _ _ Hp Hr Hf Hh)).
Qed.

(** C5.  On an INSERT node of a statement without a named conflict
    constraint, the walker returns normally and leaves slots [plans'] such
    that: each slot paired with a hypertable holds a chunk dispatch node whose
    child is the old subplan and which carries the result-relation index, the
    table identifier and the statement; every other slot holds its old
    subplan; the node is wrapped in a hypertable insert node, whose only child
    is the node with the new slots, exactly when some pair names a
    hypertable. *)
Theorem walker_rewrites_insert_on_hypertable ctx resultRelations plans :
  ~ names_conflict_constraint (ctx_parse ctx) ->
  result_relations_in_range ctx plans resultRelations ->
  exists plans',
    length plans' = length plans /\
    (forall i subplan rti rte,
        plans !! i = Some subplan -> resultRelations !! i = Some rti ->
        rt_fetch rti (ctx_rtable ctx) = Some rte ->
        plans' !! i =
          Some match hypertable_cache_get_entry (ctx_hcache ctx) (relid rte) with
               | Some _ =>
                   ChunkDispatch subplan rti (relid rte) (ctx_parse ctx)
               | None => subplan
               end) /\
    (forall i subplan,
        plans !! i = Some subplan -> resultRelations !! i = None ->
        plans' !! i = Some subplan) /\
    ((exists i subplan rti rte ht,
        plans !! i = Some subplan /\ resultRelations !! i = Some rti /\
        rt_fetch rti (ctx_rtable ctx) = Some rte /\
        hypertable_cache_get_entry (ctx_hcache ctx) (relid rte) = Some ht) ->
     modifytable_plan_walker ctx (ModifyTable CMD_INSERT resultRelations plans) =
       (HypertableInsert (ModifyTable CMD_INSERT resultRelations plans'),
        Return tt)) /\
    ((forall i subplan rti rte,
        plans !! i = Some subplan -> resultRelations !! i = Some rti ->
        rt_fetch rti (ctx_rtable ctx) = Some rte ->
        hypertable_cache_get_entry (ctx_hcache ctx) (relid rte) = None) ->
     modifytable_plan_walker ctx (ModifyTable CMD_INSERT resultRelations plans) =
       (ModifyTable CMD_INSERT resultRelations plans', Return tt)).
Proof.
  intros Hoc Hin. exists (rewritten_slots ctx plans resultRelations).
  split; [apply rewritten_slots_length|].
  split; [intros; by apply rewritten_slots_pair|].
  split; [intros; by apply rewritten_slots_unpaired|].
  simpl. rewrite (forboth_rewrites ctx plans Hoc resultRelations false Hin).
  simpl. split.
  - intros (i & sp & rti & rte & ht & Hp & Hr & Hf & Hh).
    by rewrite (targets_hypertable_true _ _ _ _ _ _ _ _ Hp Hr Hf Hh).
  - intros Hnone. by rewrite (targets_hypertable_false _ _ _ Hnone).
Qed.

(** ** More on the plan walker *)

Lemma forboth_keeps_shape ctx plans :
  forall resultRelations hypertable_found,
    let plans' :=
      (forboth_plans_resultRelations ctx plans resultRelations
         hypertable_found).1 in
    length plans' = length plans /\
    forall i subplan,
      plans !! i = Some subplan ->
      plans' !! i = Some subplan \/
      exists rti rte,
        resultRelations !! i = Some rti /\
        rt_fetch rti (ctx_rtable ctx) = Some rte /\
        is_Some (hypertable_cache_get_entry (ctx_hcache ctx) (relid rte)) /\
        plans' !! i =
          Some (ChunkDispatch subplan rti (relid rte) (ctx_parse ctx)).
Proof.
  induction plans as [|sp ps IH]; intros [|rti rs] found; cbv zeta;
    try (split; [done|by left]).
  cbn [forboth_plans_resultRelations].
  destruct (rt_fetch rti (ctx_rtable ctx)) as [rte|] eqn:Hf;
    [|split; [done|by left]].
  destruct (hypertable_cache_get_entry _ _) as [ht|] eqn:Hh.
  - destruct (match onConflict (ctx_parse ctx) with
              | Some oc => negb (constraint oc =? InvalidOid)%Z
              | None => false
              end); [split; [done|by left]|].
    specialize (IH rs true). cbv zeta in IH.
    destruct (forboth_plans_resultRelations ctx ps rs true) as [rest r].
    simpl in IH. destruct IH as [Hlen Hslots]. simpl. split; [by rewrite Hlen|].
    intros [|i] subplan Hp; simpl in *.
    + injection Hp as <-. right. exists rti, rte. rewrite Hh. eauto.
    + by apply Hslots.
  - specialize (IH rs found). cbv zeta in IH.
    destruct (forboth_plans_resultRelations ctx ps rs found) as [rest r].
    simpl in IH. destruct IH as [Hlen Hslots]. simpl. split; [by rewrite Hlen|].
    intros [|i] subplan Hp; simpl in *.
    + by left.
    + by apply Hslots.
Qed.

(** X1.  Whatever the walker is given and however it leaves, a ModifyTable
    node keeps its operation, its result relations and the number of its
    subplan slots, and every slot holds afterwards its old subplan or a chunk
    dispatch node over that subplan for a result relation that is a
    hypertable: no subplan is dropped, moved or replaced by anything else, and
    the node itself is kept or put under one hypertable insert node. *)
Theorem walker_keeps_shape ctx operation resultRelations plans :
  exists plans',
    length plans' = length plans /\
    (forall i subplan,
        plans !! i = Some subplan ->
        plans' !! i = Some subplan \/
        exists rti rte,
          resultRelations !! i = Some rti /\
          rt_fetch rti (ctx_rtable ctx) = Some rte /\
          is_Some (hypertable_cache_get_entry (ctx_hcache ctx) (relid rte)) /\
          plans' !! i =
            Some (ChunkDispatch subplan rti (relid rte) (ctx_parse ctx))) /\
    ((modifytable_plan_walker ctx
        (ModifyTable operation resultRelations plans)).1 =
       ModifyTable operation resultRelations plans' \/
     (modifytable_plan_walker ctx
        (ModifyTable operation resultRelations plans)).1 =
       HypertableInsert (ModifyTable operation resultRelations plans')).
Proof.
  destruct (decide (operation = CMD_INSERT)) as [->|Hop].
  - pose proof (forboth_keeps_shape ctx plans resultRelations false) as H.
    cbv zeta in H. simpl.
    destruct (forboth_plans_resultRelations ctx plans resultRelations false)
      as [plans' r].
    simpl in H. destruct H as [Hlen Hslots]. exists plans'.
    split; [done|]. split; [done|].
    destruct r as [[]|f]; simpl; auto.
  - exists plans. split; [done|]. split; [by left|].
    left. by destruct operation.
Qed.

Lemma forboth_only_error ctx plans :
  forall resultRelations hypertable_found e,
    (forboth_plans_resultRelations ctx plans resultRelations
       hypertable_found).2 = Abort (ERROR e) ->
    e = on_conflict_constraint_error /\
    names_conflict_constraint (ctx_parse ctx) /\
    exists i subplan rti rte ht,
      plans !! i = Some subplan /\ resultRelations !! i = Some rti /\
      rt_fetch rti (ctx_rtable ctx) = Some rte /\
      hypertable_cache_get_entry (ctx_hcache ctx) (relid rte) = Some ht.
Proof.
  induction plans as [|sp ps IH]; intros [|rti rs] found e; try done.
  cbn [forboth_plans_resultRelations].
  destruct (rt_fetch rti (ctx_rtable ctx)) as [rte|] eqn:Hf; [|done].
  destruct (hypertable_cache_get_entry _ _) as [ht|] eqn:Hh.
  - destruct (onConflict (ctx_parse ctx)) as [oc|] eqn:Hoc.
    + destruct (Z.eqb_spec (constraint oc) InvalidOid) as [Heq|Hne]; simpl.
      * specialize (IH rs true e).
        destruct (forboth_plans_resultRelations ctx ps rs true) as [rest r].
        simpl. intros Hr. destruct (IH Hr) as (-> & (oc' & Hoc' & Hne') & _).
        congruence.
      * intros [= <-]. split; [done|]. split; [by exists oc|].
        exists 0%nat, sp, rti, rte, ht. by rewrite Hf, Hh.
    + specialize (IH rs true e).
      destruct (forboth_plans_resultRelations ctx ps rs true) as [rest r].
      simpl. intros Hr. destruct (IH Hr) as (_ & (oc' & Hoc' & _) & _).
      congruence.
  - specialize (IH rs found e).
    destruct (forboth_plans_resultRelations ctx ps rs found) as [rest r].
    simpl. intros Hr.
    destruct (IH Hr) as (-> & Hnames & i & s & x & y & h & Hp & Hq & Hx & Hy).
    split; [done|]. split; [done|].
    by exists (S i), s, x, y, h.
Qed.

(** X2.  The only error the walker raises is the ON CONFLICT error, and it
    raises it only on an INSERT node with a pair whose result relation is a
    hypertable, in a statement whose conflict target is a named constraint;
    on every other node and statement the walker raises nothing. *)
Theorem walker_only_error ctx plan e :
  (modifytable_plan_walker ctx plan).2 = Abort (ERROR e) ->
  e = on_conflict_constraint_error /\
  names_conflict_constraint (ctx_parse ctx) /\
  exists resultRelations plans i subplan rti rte ht,
    plan = ModifyTable CMD_INSERT resultRelations plans /\
    plans !! i = Some subplan /\ resultRelations !! i = Some rti /\
    rt_fetch rti (ctx_rtable ctx) = Some rte /\
    hypertable_cache_get_entry (ctx_hcache ctx) (relid rte) = Some ht.
Proof.
  destruct plan as [operation rels plans| | |]; try done.
  destruct operation; try done. simpl.
  pose proof (forboth_only_error ctx plans rels false e) as H.
  destruct (forboth_plans_resultRelations ctx plans rels false) as [plans' r].
  simpl in H. destruct r as [[]|f]; simpl; try done.
  intros [= ->]. destruct (H eq_refl) as (He & Hn & i & s & x & y & h & Hrest).
  split; [done|]. split; [done|]. by exists rels, plans, i, s, x, y, h.
Qed.

(** ** Running computations *)

Lemma bind_gets {A B} (f : World -> A) (k : A -> M B) w :
  bind (gets f) k w = k (f w) w.
Proof. reflexivity. Qed.

Lemma bind_ret {A B} (a : A) (k : A -> M B) w : bind (ret a) k w = k a w.
Proof. reflexivity. Qed.

Lemma bind_modify {B} (f : World -> World) (k : unit -> M B) w :
  bind (modify f) k w = k tt (f w).
Proof. reflexivity. Qed.

Lemma bind_run {A B} (m : M A) (k : A -> M B) w a w' :
  m w = (Return a, w') -> bind m k w = k a w'.
Proof. unfold bind. by intros ->. Qed.

Lemma bind_bind {A B C} (m : M A) (k : A -> M B) (k' : B -> M C) w :
  bind (bind m k) k' w = bind m (fun a => bind (k a) k') w.
Proof. unfold bind. by destruct (m w) as [[a|f] w1]. Qed.

(** ** The hooks *)

Section PlannerFacts.

Variable invoke_planner_hook :
  planner_hook_type -> Query -> Z -> ParamListInfo -> M PlannedStmt.
Variable standard_planner : Query -> Z -> ParamListInfo -> M PlannedStmt.
Variable invoke_set_rel_pathlist_hook :
  set_rel_pathlist_hook_type -> Z -> Z -> Z -> M unit.
Variable IS_DUMMY_REL : RelOptInfo -> bool.
Variable contain_mutable_functions : Expr -> bool.
Variable sort_transform : PlannerInfo -> RelOptInfo -> RelOptInfo.

(** The hooks start with the chained call. *)
Lemma planner_unfold parse cursor_opts bound_params w :
  timescaledb_planner invoke_planner_hook standard_planner
    parse cursor_opts bound_params w =
    match previous_planner invoke_planner_hook standard_planner
            parse cursor_opts bound_params w with
    | (Return plan_stmt, w1) =>
        if extension_loaded w1 then
          let ctx := {| ctx_parse := parse;
                        ctx_hcache := hypertable_cache_current w1;
                        ctx_rtable := rtable plan_stmt |} in
          match planned_stmt_walker plan_stmt (modifytable_plan_walker ctx) with
          | Return plan_stmt' =>
              (Return plan_stmt', log EvCacheRelease (log EvCachePin w1))
          | Abort f => (Abort f, log EvCachePin w1)
          end
        else (Return plan_stmt, w1)
    | (Abort f, w1) => (Abort f, w1)
    end.
Proof.
  unfold timescaledb_planner, previous_planner, bind, gets. simpl.
  destruct (match prev_planner_hook w with
            | Some hook => invoke_planner_hook hook parse cursor_opts bound_params
            | None => standard_planner parse cursor_opts bound_params
            end w) as [[plan_stmt|f] w1]; [|done].
  unfold extension_is_loaded, gets. destruct (extension_loaded w1); [|done].
  unfold hypertable_cache_pin, cache_release, lift_outcome, modify, bind, gets, ret.
  simpl. by destruct (planned_stmt_walker _ _).
Qed.

(** C1.  The hook pins the cache at most once.  When it returns a plan with
    the extension loaded, it has released that handle exactly once, after
    the walk; when the walk raises an error, the hook is left with the
    handle pinned and without a release of its own.  It never releases
    twice, and it neither pins nor releases when the extension is not loaded
    or the chained planner fails. *)
Theorem planner_pins_and_releases parse cursor_opts bound_params w :
  let '(r1, w1) :=
    previous_planner invoke_planner_hook standard_planner
      parse cursor_opts bound_params w in
  let '(r, w') :=
    timescaledb_planner invoke_planner_hook standard_planner
      parse cursor_opts bound_params w in
  match r1 with
  | Abort f => r = Abort f /\ trace w' = trace w1
  | Return plan_stmt =>
      if extension_loaded w1 then
        let ctx := {| ctx_parse := parse;
                      ctx_hcache := hypertable_cache_current w1;
                      ctx_rtable := rtable plan_stmt |} in
        match planned_stmt_walker plan_stmt (modifytable_plan_walker ctx) with
        | Return plan_stmt' =>
            r = Return plan_stmt' /\
            trace w' = trace w1 ++ [EvCachePin; EvCacheRelease]
        | Abort f =>
            r = Abort f /\ trace w' = trace w1 ++ [EvCachePin]
        end
      else r = Return plan_stmt /\ trace w' = trace w1
  end.
Proof.
  rewrite planner_unfold.
  destruct (previous_planner invoke_planner_hook standard_planner
              parse cursor_opts bound_params w)
    as [[plan_stmt|f] w1]; [|done].
  destruct (extension_loaded w1); [|done]. simpl.
  destruct (planned_stmt_walker _ _); simpl; [|done].
  by rewrite <- app_assoc.
Qed.

Lemma set_rel_pathlist_not_loaded rel rti rte w :
  extension_loaded
    (previous_set_rel_pathlist invoke_set_rel_pathlist_hook rel rti rte w).2 =
    false ->
  timescaledb_set_rel_pathlist invoke_set_rel_pathlist_hook IS_DUMMY_REL
    contain_mutable_functions sort_transform rel rti rte w =
    previous_set_rel_pathlist invoke_set_rel_pathlist_hook rel rti rte w.
Proof.
  unfold timescaledb_set_rel_pathlist, previous_set_rel_pathlist, bind, gets.
  simpl.
  destruct (match prev_set_rel_pathlist_hook w with
            | Some hook => invoke_set_rel_pathlist_hook hook rel rti rte
            | None => ret tt
            end w) as [[[]|f] w1]; [|done].
  unfold extension_is_loaded, gets. simpl. by intros ->.
Qed.

(** C8.  When the extension is not loaded once the chained hook has run,
    the planner hook does exactly what the chained hook or the standard
    planner did, with no pin and no walk, and the path-list hook does
    exactly what the chained hook did, or nothing when there is none. *)
Theorem hooks_pass_through_when_not_loaded
    parse cursor_opts bound_params rel rti rte w :
  extension_loaded
    (previous_planner invoke_planner_hook standard_planner
       parse cursor_opts bound_params w).2 = false ->
  extension_loaded
    (previous_set_rel_pathlist invoke_set_rel_pathlist_hook rel rti rte w).2 =
    false ->
  timescaledb_planner invoke_planner_hook standard_planner
    parse cursor_opts bound_params w =
    previous_planner invoke_planner_hook standard_planner
      parse cursor_opts bound_params w /\
  timescaledb_set_rel_pathlist invoke_set_rel_pathlist_hook IS_DUMMY_REL
    contain_mutable_functions sort_transform rel rti rte w =
    previous_set_rel_pathlist invoke_set_rel_pathlist_hook rel rti rte w.
Proof.
  intros H1 H2. split; [|by apply set_rel_pathlist_not_loaded].
  rewrite planner_unfold.
  destruct (previous_planner invoke_planner_hook standard_planner
              parse cursor_opts bound_params w)
    as [[plan_stmt|f] w1]; [|done].
  simpl in H1. by rewrite H1.
Qed.

(** C9.  [_planner_init] installs the two implementations, and
    [_planner_fini] after it puts back into both hook variables the values
    they had before [_planner_init]. *)
Theorem planner_init_fini_restores_hooks w :
  let '(r1, w1) := _planner_init w in
  let '(r2, w2) := (_planner_init ;; _planner_fini) w in
  r1 = Return tt /\
  planner_hook w1 = Some timescaledb_planner_fn /\
  set_rel_pathlist_hook w1 = Some timescaledb_set_rel_pathlist_fn /\
  r2 = Return tt /\
  planner_hook w2 = planner_hook w /\
  set_rel_pathlist_hook w2 = set_rel_pathlist_hook w.
Proof. by destruct w. Qed.

(** *** The path-list hook *)

Lemma should_optimize_append_eq path rel r w :
  parent path = rel ->
  simple_rel_array (root w) !! rel = Some r ->
  should_optimize_append contain_mutable_functions path w =
    (Return
       (guc_constraint_aware_append w &&
        bool_decide (constraint_exclusion w <> CONSTRAINT_EXCLUSION_OFF) &&
        existsb (fun rinfo => contain_mutable_functions (clause rinfo))
          (baserestrictinfo r)), w).
Proof.
  intros Hp Hr. unfold should_optimize_append, bind, gets. simpl.
  destruct (guc_constraint_aware_append w); simpl; [|done].
  destruct (constraint_exclusion w); simpl; try done;
    by rewrite Hp, Hr.
Qed.

Lemma foreach_path_eq h rel r w l :
  simple_rel_array (root w) !! rel = Some r ->
  Forall (fun path => parent path = rel) l ->
  foreach_path contain_mutable_functions h l w =
    (Return
       ((fun path =>
           if append_eligible contain_mutable_functions w r path
           then constraint_aware_append_path_create h path
           else path) <$> l), w).
Proof.
  intros Hr. induction 1 as [|path rest Hp _ IH]; [done|].
  cbn [foreach_path fmap list_fmap]. unfold bind at 1.
  assert (match nodeTag path with
          | T_AppendPath | T_MergeAppendPath =>
              optimize <- should_optimize_append contain_mutable_functions path ;;
              if optimize : bool
              then ret (constraint_aware_append_path_create h path)
              else ret path
          | _ => ret path
          end w =
          (Return (if append_eligible contain_mutable_functions w r path
                   then constraint_aware_append_path_create h path
                   else path), w)) as ->.
  { unfold append_eligible, is_append_tag.
    destruct (nodeTag path) eqn:Htag;
      try (rewrite bool_decide_false by (intros [?|?]; discriminate); done);
      rewrite bool_decide_true by auto;
      unfold bind; rewrite (should_optimize_append_eq path rel r w Hp Hr);
      simpl;
      by destruct (guc_constraint_aware_append w && _ && _). }
  unfold bind. by rewrite IH.
Qed.

Lemma apply_constraint_aware_append_eq ht rel rte w r e :
  simple_rel_array (root w) !! rel = Some r ->
  simple_rte_array (root w) !! rte = Some e ->
  Forall (fun path => parent path = rel) (pathlist r) ->
  apply_constraint_aware_append contain_mutable_functions ht rel rte w =
    (Return tt,
     match ht with
     | Some h =>
         if is_append_parent r e && (0 =? resultRelation (parse (root w)))%Z
         then
           set_root
             (set_rel rel
                (set_pathlist
                   ((fun path =>
                       if append_eligible contain_mutable_functions w r path
                       then constraint_aware_append_path_create h path
                       else path) <$> pathlist r) r)
                (root w)) w
         else w
     | None => w
     end).
Proof.
  intros Hr He Hp. destruct ht as [h|]; [|done].
  unfold apply_constraint_aware_append, bind, gets. simpl.
  rewrite Hr, He. simpl.
  destruct (is_append_parent r e && _); [|done].
  by rewrite (foreach_path_eq h rel r w _ Hr Hp).
Qed.

Lemma apply_constraint_aware_append_skips ht rel rte w r e :
  simple_rel_array (root w) !! rel = Some r ->
  simple_rte_array (root w) !! rte = Some e ->
  ht = None \/ is_append_parent r e = false \/
    resultRelation (parse (root w)) <> 0%Z ->
  apply_constraint_aware_append contain_mutable_functions ht rel rte w =
    (Return tt, w).
Proof.
  intros Hr He Hskip. destruct ht as [h|]; [|done].
  unfold apply_constraint_aware_append, bind, gets. simpl.
  rewrite Hr, He. simpl.
  destruct Hskip as [?|[->|Hne]]; [done|done|].
  destruct (resultRelation (parse (root w))); [done|..];
    by destruct (is_append_parent r e).
Qed.

(** The path loop, run for a relation whose paths all belong to it: every
    cell of the path list holds afterwards the path it held or the wrapper
    around it, the latter only under the conditions of the loop. *)
Lemma path_loop_wraps_only_eligible ht rel rte w r e :
  simple_rel_array (root w) !! rel = Some r ->
  simple_rte_array (root w) !! rte = Some e ->
  Forall (fun path => parent path = rel) (pathlist r) ->
  exists w' r',
    apply_constraint_aware_append contain_mutable_functions ht rel rte w =
      (Return tt, w') /\
    simple_rel_array (root w') !! rel = Some r' /\
    (forall other, other <> rel ->
       simple_rel_array (root w') !! other =
         simple_rel_array (root w) !! other) /\
    Forall2
      (fun path path' =>
         path' = path \/
         exists h,
           ht = Some h /\
           path' = constraint_aware_append_path_create h path /\
           guc_constraint_aware_append w = true /\
           constraint_exclusion w <> CONSTRAINT_EXCLUSION_OFF /\
           mutable_restriction contain_mutable_functions r /\
           is_append_tag (nodeTag path) /\
           is_append_parent r e = true)
      (pathlist r) (pathlist r').
Proof.
  intros Hr He Hp.
  rewrite (apply_constraint_aware_append_eq ht rel rte w r e Hr He Hp).
  destruct ht as [h|]; [destruct (is_append_parent r e && _) eqn:Hgo|].
  2, 3: exists w, r; repeat split; [done..|];
        apply Forall2_same_length_lookup_2; [done|];
        intros i x y Hx Hy; left; congruence.
  apply andb_prop in Hgo as [Hparent _].
  eexists _, _. split; [done|]. simpl.
  split; [apply lookup_insert_eq|].
  split; [intros other Hne; by apply lookup_insert_ne|].
  simpl. apply Forall2_fmap_r, Forall_Forall2_diag, Forall_forall.
  intros path _. simpl.
  destruct (append_eligible contain_mutable_functions w r path) eqn:Hel;
    [|by left].
  right. exists h. unfold append_eligible in Hel.
  apply andb_prop in Hel as [Hel Hmut].
  apply andb_prop in Hel as [Hel Hexcl].
  apply andb_prop in Hel as [Htag Hguc].
  apply bool_decide_eq_true in Htag, Hexcl.
  apply existsb_exists in Hmut as (rinfo & Hin & Hmut).
  repeat split; try done.
  exists rinfo. split; [by apply list_elem_of_In|done].
Qed.

(** The hook leaves at once, after the chained hook, when the extension is
    not loaded, the relation is dummy, the range table entry names no table,
    or only hypertables are optimized and the relation is neither an append
    parent nor a member of an append relation. *)
Lemma set_rel_pathlist_returns_early rel rti rte w w0 :
  previous_set_rel_pathlist invoke_set_rel_pathlist_hook rel rti rte w =
    (Return tt, w0) ->
  extension_loaded w0 = false \/
  (exists r,
     simple_rel_array (root w0) !! rel = Some r /\
     (IS_DUMMY_REL r = true \/
      exists e,
        simple_rte_array (root w0) !! rte = Some e /\
        (relid e = InvalidOid \/
         (guc_optimize_non_hypertables w0 = false /\
          is_append_parent r e = false /\ is_append_child r e = false)))) ->
  timescaledb_set_rel_pathlist invoke_set_rel_pathlist_hook IS_DUMMY_REL
    contain_mutable_functions sort_transform rel rti rte w = (Return tt, w0).
Proof.
  intros Hprev Hgate.
  unfold timescaledb_set_rel_pathlist. rewrite bind_gets. cbv beta.
  erewrite bind_run; [|exact Hprev].
  unfold extension_is_loaded. rewrite bind_gets. cbv beta.
  destruct Hgate as [->|(r & Hr & Hgate)]; [done|].
  destruct (extension_loaded w0); [|done]. cbn [negb].
  rewrite bind_gets. cbv beta. rewrite Hr. cbn [deref]. rewrite bind_ret.
  destruct Hgate as [->|(e & He & Hgate)]; [done|].
  destruct (IS_DUMMY_REL r); [done|].
  rewrite He. cbn [deref]. rewrite bind_ret.
  destruct Hgate as [->|(Hall & Hparent & Hchild)]; [done|].
  destruct (negb (OidIsValid (relid e))); [done|].
  rewrite bind_gets. cbv beta. by rewrite Hall, Hparent, Hchild.
Qed.

(** Past those tests the hook pins the cache, looks the table up, and, when
    [should_optimize_query] agrees, runs the sort transform stage and then
    the path loop; the release comes last. *)
Lemma set_rel_pathlist_stages rel rti rte w w0 r e :
  previous_set_rel_pathlist invoke_set_rel_pathlist_hook rel rti rte w =
    (Return tt, w0) ->
  extension_loaded w0 = true ->
  simple_rel_array (root w0) !! rel = Some r ->
  IS_DUMMY_REL r = false ->
  simple_rte_array (root w0) !! rte = Some e ->
  relid e <> InvalidOid ->
  guc_optimize_non_hypertables w0 = true \/
    is_append_parent r e = true \/ is_append_child r e = true ->
  timescaledb_set_rel_pathlist invoke_set_rel_pathlist_hook IS_DUMMY_REL
    contain_mutable_functions sort_transform rel rti rte w =
    (let hcache := hypertable_cache_current w0 in
     let ht := hypertable_cache_get_entry hcache (relid e) in
     optimize <- should_optimize_query ht ;;
     (if optimize : bool
      then
        apply_sort_transform sort_transform ht rel rte ;;
        apply_constraint_aware_append contain_mutable_functions ht rel rte
      else ret tt) ;;
     cache_release hcache) (log EvCachePin w0).
Proof.
  intros Hprev Hloaded Hr Hdummy He Hoid Hgate.
  unfold timescaledb_set_rel_pathlist. rewrite bind_gets. cbv beta.
  erewrite bind_run; [|exact Hprev].
  unfold extension_is_loaded. rewrite bind_gets. cbv beta.
  rewrite Hloaded. cbn [negb].
  rewrite bind_gets. cbv beta. rewrite Hr. cbn [deref]. rewrite bind_ret.
  rewrite Hdummy, He. cbn [deref]. rewrite bind_ret.
  unfold OidIsValid.
  destruct (Z.eqb_spec (relid e) InvalidOid) as [|_]; [done|]. cbn [negb].
  rewrite bind_gets. cbv beta.
  assert (negb (guc_optimize_non_hypertables w0) &&
          negb (is_append_parent r e || is_append_child r e) = false) as ->.
  { destruct Hgate as [-> | [-> | ->]]; [done|by rewrite andb_false_r|].
    by rewrite orb_true_r, andb_false_r. }
  unfold hypertable_cache_pin. rewrite bind_bind, bind_modify, bind_gets.
  reflexivity.
Qed.

(** When [should_optimize_query] says no, the hook only pins and releases. *)
Lemma set_rel_pathlist_not_optimized rel rti rte w w0 r e :
  previous_set_rel_pathlist invoke_set_rel_pathlist_hook rel rti rte w =
    (Return tt, w0) ->
  extension_loaded w0 = true ->
  simple_rel_array (root w0) !! rel = Some r ->
  IS_DUMMY_REL r = false ->
  simple_rte_array (root w0) !! rte = Some e ->
  relid e <> InvalidOid ->
  guc_optimize_non_hypertables w0 = true \/
    is_append_parent r e = true \/ is_append_child r e = true ->
  guc_disable_optimizations w0 = true \/
    (guc_optimize_non_hypertables w0 = false /\
     hypertable_cache_get_entry (hypertable_cache_current w0) (relid e) =
       None) ->
  timescaledb_set_rel_pathlist invoke_set_rel_pathlist_hook IS_DUMMY_REL
    contain_mutable_functions sort_transform rel rti rte w =
    (Return tt, log EvCacheRelease (log EvCachePin w0)).
Proof.
  intros Hprev Hloaded Hr Hdummy He Hoid Hgate Hno.
  rewrite (set_rel_pathlist_stages rel rti rte w w0 r e Hprev Hloaded Hr
             Hdummy He Hoid Hgate).
  cbv zeta. unfold should_optimize_query.
  rewrite bind_bind, bind_gets. cbv beta.
  rewrite bind_bind, bind_gets. cbv beta.
  change (guc_disable_optimizations (log EvCachePin w0))
    with (guc_disable_optimizations w0).
  change (guc_optimize_non_hypertables (log EvCachePin w0))
    with (guc_optimize_non_hypertables w0).
  destruct Hno as [-> | [-> ->]]; [done|].
  rewrite bool_decide_false by (by intros [??]).
  by destruct (guc_disable_optimizations w0).
Qed.

(** From the path loop on: the loop runs on the state the sort transform
    stage has left, and the release follows. *)
Lemma set_rel_pathlist_from_path_loop rel rti rte w ht w1 w2 :
  reaches_path_loop invoke_set_rel_pathlist_hook IS_DUMMY_REL sort_transform
    rel rti rte w ht w1 ->
  apply_constraint_aware_append contain_mutable_functions ht rel rte w1 =
    (Return tt, w2) ->
  timescaledb_set_rel_pathlist invoke_set_rel_pathlist_hook IS_DUMMY_REL
    contain_mutable_functions sort_transform rel rti rte w =
    (Return tt, log EvCacheRelease w2).
Proof.
  intros (w0 & r & e & Hprev & Hloaded & Hr & Hdummy & He & Hoid & Hgate &
          -> & Hdis & Hopt & Hsort) Hloop.
  rewrite (set_rel_pathlist_stages rel rti rte w w0 r e Hprev Hloaded Hr
             Hdummy He Hoid Hgate).
  cbv zeta. unfold should_optimize_query.
  rewrite bind_bind, bind_gets. cbv beta.
  rewrite bind_bind, bind_gets. cbv beta.
  change (guc_disable_optimizations (log EvCachePin w0))
    with (guc_disable_optimizations w0).
  change (guc_optimize_non_hypertables (log EvCachePin w0))
    with (guc_optimize_non_hypertables w0).
  rewrite Hdis. cbn [negb andb].
  assert (guc_optimize_non_hypertables w0 ||
          bool_decide
            (is_Some
               (hypertable_cache_get_entry (hypertable_cache_current w0)
                  (relid e))) = true) as ->.
  { destruct Hopt as [->|Hsome]; [done|].
    by rewrite bool_decide_true, orb_true_r. }
  rewrite bind_ret. cbv beta iota. rewrite bind_bind.
  erewrite bind_run; [|exact Hsort].
  erewrite bind_run; [|exact Hloop].
  reflexivity.
Qed.

(** C3.  Whenever the hook comes to its path loop, for a relation whose
    paths all belong to it, it returns, and every cell of the path list of
    the relation holds afterwards either the path it held when the loop was
    reached, or the constraint-aware wrapper around that path; the latter only
    if constraint-aware append is switched on, constraint exclusion is not
    off, a restriction clause of the relation has a mutable function, the path
    is an Append or MergeAppend path, the table of the relation was found in
    the hypertable cache and the relation is an append parent.  No other
    relation is written by the loop. *)
Theorem wrapper_only_on_eligible_paths rel rti rte w ht w1 r e :
  reaches_path_loop invoke_set_rel_pathlist_hook IS_DUMMY_REL sort_transform
    rel rti rte w ht w1 ->
  simple_rel_array (root w1) !! rel = Some r ->
  simple_rte_array (root w1) !! rte = Some e ->
  Forall (fun path => parent path = rel) (pathlist r) ->
  exists w' r',
    timescaledb_set_rel_pathlist invoke_set_rel_pathlist_hook IS_DUMMY_REL
      contain_mutable_functions sort_transform rel rti rte w =
      (Return tt, w') /\
    simple_rel_array (root w') !! rel = Some r' /\
    (forall other, other <> rel ->
       simple_rel_array (root w') !! other =
         simple_rel_array (root w1) !! other) /\
    Forall2
      (fun path path' =>
         path' = path \/
         exists h,
           ht = Some h /\
           path' = constraint_aware_append_path_create h path /\
           guc_constraint_aware_append w1 = true /\
           constraint_exclusion w1 <> CONSTRAINT_EXCLUSION_OFF /\
           mutable_restriction contain_mutable_functions r /\
           is_append_tag (nodeTag path) /\
           is_append_parent r e = true)
      (pathlist r) (pathlist r').
Proof.
  intros Hreach Hr He Hp.
  destruct (path_loop_wraps_only_eligible ht rel rte w1 r e Hr He Hp)
    as (w2 & r' & Hloop & Hr' & Hother & Hpaths).
  exists (log EvCacheRelease w2), r'.
  split; [|by auto].
  exact (set_rel_pathlist_from_path_loop rel rti rte w ht w1 w2 Hreach Hloop).
Qed.

(** C4.  When the hook comes to its path loop for a relation that is an
    append parent and whose table is a hypertable, it wraps the eligible
    paths if the statement has no result relation, and it leaves every path
    as it is if the statement has one, whether or not that result relation
    is the relation at hand. *)
Theorem wrapper_needs_statement_without_result_relation
    rel rti rte w h w1 r e :
  reaches_path_loop invoke_set_rel_pathlist_hook IS_DUMMY_REL sort_transform
    rel rti rte w (Some h) w1 ->
  simple_rel_array (root w1) !! rel = Some r ->
  simple_rte_array (root w1) !! rte = Some e ->
  is_append_parent r e = true ->
  Forall (fun path => parent path = rel) (pathlist r) ->
  (resultRelation (parse (root w1)) <> 0%Z ->
   timescaledb_set_rel_pathlist invoke_set_rel_pathlist_hook IS_DUMMY_REL
     contain_mutable_functions sort_transform rel rti rte w =
     (Return tt, log EvCacheRelease w1)) /\
  (resultRelation (parse (root w1)) = 0%Z ->
   timescaledb_set_rel_pathlist invoke_set_rel_pathlist_hook IS_DUMMY_REL
     contain_mutable_functions sort_transform rel rti rte w =
     (Return tt,
      log EvCacheRelease
        (set_root
           (set_rel rel
              (set_pathlist
                 ((fun path =>
                     if append_eligible contain_mutable_functions w1 r path
                     then constraint_aware_append_path_create h path
                     else path) <$> pathlist r) r)
              (root w1)) w1))).
Proof.
  intros Hreach Hr He Hparent Hp. split; intros Hres;
    apply (set_rel_pathlist_from_path_loop rel rti rte w (Some h) w1 _ Hreach).
  - apply (apply_constraint_aware_append_skips _ _ _ _ r e Hr He). auto.
  - rewrite (apply_constraint_aware_append_eq _ rel rte w1 r e Hr He Hp).
    by rewrite Hparent, Hres.
Qed.

Lemma sort_transform_optimization_eq rel r w :
  simple_rel_array (root w) !! rel = Some r ->
  sort_transform_optimization sort_transform rel w =
    (Return tt,
     log (EvSortTransform rel)
       (set_root (set_rel rel (sort_transform (root w) r) (root w)) w)).
Proof.
  intros Hr. unfold sort_transform_optimization, bind, gets. simpl.
  by rewrite Hr.
Qed.

Lemma transform_all_cons rel rels w r :
  simple_rel_array (root w) !! rel = Some r ->
  transform_all sort_transform (rel :: rels) w =
    transform_all sort_transform rels
      (log (EvSortTransform rel)
         (set_root (set_rel rel (sort_transform (root w) r) (root w)) w)).
Proof. intros Hr. unfold transform_all. simpl. by rewrite Hr. Qed.

Lemma foreach_append_rel_eq reloid l :
  forall w,
    (forall c, c ∈ children_of reloid l ->
               is_Some (simple_rel_array (root w) !! c)) ->
    foreach_append_rel sort_transform reloid l w =
      (Return tt, transform_all sort_transform (children_of reloid l) w).
Proof.
  unfold children_of.
  induction l as [|appinfo rest IH]; intros w Hvalid; [done|].
  cbn [foreach_append_rel]. unfold bind at 1.
  destruct (decide (parent_reloid appinfo = reloid)) as [Heq|Hne].
  - rewrite bool_decide_false by auto.
    rewrite filter_cons_True in * by done. cbn [fmap list_fmap] in *.
    destruct (Hvalid (child_relid appinfo)) as [r Hr]; [apply list_elem_of_here|].
    rewrite (sort_transform_optimization_eq _ r w Hr).
    rewrite (transform_all_cons _ _ w r Hr).
    apply IH. intros c Hc. simpl.
    destruct (decide (child_relid appinfo = c)) as [->|Hc'].
    + rewrite lookup_insert_eq. eauto.
    + rewrite lookup_insert_ne by done. apply Hvalid. by apply list_elem_of_further.
  - rewrite bool_decide_true by auto.
    rewrite filter_cons_False in * by done. by apply IH.
Qed.

(** What a run of sort transforms leaves alone, and what it records. *)
Lemma transform_all_frame rels :
  forall w,
    (forall c, c ∈ rels -> is_Some (simple_rel_array (root w) !! c)) ->
    let w' := transform_all sort_transform rels w in
    trace w' = trace w ++ (EvSortTransform <$> rels) /\
    simple_rte_array (root w') = simple_rte_array (root w) /\
    parse (root w') = parse (root w) /\
    (forall j, is_Some (simple_rel_array (root w) !! j) ->
               is_Some (simple_rel_array (root w') !! j)).
Proof.
  induction rels as [|rel rels IH]; intros w Hvalid; cbv zeta.
  { unfold transform_all. simpl. by rewrite app_nil_r. }
  destruct (Hvalid rel) as [r Hr]; [apply list_elem_of_here|].
  rewrite (transform_all_cons _ _ w r Hr).
  set (w1 := log _ _).
  assert (forall j, is_Some (simple_rel_array (root w) !! j) ->
                    is_Some (simple_rel_array (root w1) !! j)) as Hdom.
  { intros j Hj. simpl. destruct (decide (rel = j)) as [->|Hne].
    - rewrite lookup_insert_eq. eauto.
    - by rewrite lookup_insert_ne. }
  destruct (IH w1) as (Ht & He & Hq & Hd).
  { intros c Hc. apply Hdom, Hvalid. by apply list_elem_of_further. }
  rewrite Ht, He, Hq. simpl. rewrite <- app_assoc.
  repeat split; auto.
Qed.

Lemma transform_all_other rels :
  forall w j,
    j ∉ rels ->
    simple_rel_array (root (transform_all sort_transform rels w)) !! j =
      simple_rel_array (root w) !! j.
Proof.
  induction rels as [|rel rels IH]; intros w j Hj; [done|].
  apply not_elem_of_cons in Hj as [Hne Hj].
  destruct (simple_rel_array (root w) !! rel) as [r|] eqn:Hr.
  - rewrite (transform_all_cons _ _ w r Hr), (IH _ j Hj). simpl.
    by rewrite lookup_insert_ne.
  - assert (transform_all sort_transform (rel :: rels) w =
            transform_all sort_transform rels w) as ->
      by (unfold transform_all; simpl; by rewrite Hr).
    by apply IH.
Qed.

(** After a run of sort transforms every relation of the run holds an output
    of the transform; when the relations of the run are distinct, it is the
    output for the relation that was there before the run. *)
Lemma transform_all_applied rels :
  forall w c,
    (forall j, j ∈ rels -> is_Some (simple_rel_array (root w) !! j)) ->
    c ∈ rels ->
    exists p r,
      simple_rel_array (root (transform_all sort_transform rels w)) !! c =
        Some (sort_transform p r).
Proof.
  induction rels as [|rel rels IH]; intros w c Hvalid Hc;
    [by apply elem_of_nil in Hc|].
  destruct (Hvalid rel) as [r Hr]; [apply list_elem_of_here|].
  rewrite (transform_all_cons _ _ w r Hr).
  set (w1 := log _ _).
  destruct (decide (c ∈ rels)) as [Hin|Hnotin].
  - apply IH; [|done]. intros j Hj. simpl.
    destruct (decide (rel = j)) as [->|Hne].
    + rewrite lookup_insert_eq. eauto.
    + rewrite lookup_insert_ne by done. apply Hvalid.
      by apply list_elem_of_further.
  - apply elem_of_cons in Hc as [->|Hc]; [|done].
    rewrite (transform_all_other rels w1 rel Hnotin).
    exists (root w), r. apply lookup_insert_eq.
Qed.

Lemma transform_all_applied_once rels :
  forall w c r0,
    NoDup rels ->
    (forall j, j ∈ rels -> is_Some (simple_rel_array (root w) !! j)) ->
    c ∈ rels ->
    simple_rel_array (root w) !! c = Some r0 ->
    exists p,
      simple_rel_array (root (transform_all sort_transform rels w)) !! c =
        Some (sort_transform p r0).
Proof.
  induction rels as [|rel rels IH]; intros w c r0 Hnodup Hvalid Hc Hr0;
    [by apply elem_of_nil in Hc|].
  apply NoDup_cons in Hnodup as [Hfresh Hnodup].
  destruct (Hvalid rel) as [r Hr]; [apply list_elem_of_here|].
  rewrite (transform_all_cons _ _ w r Hr).
  set (w1 := log _ _).
  apply elem_of_cons in Hc as [->|Hc].
  - rewrite (transform_all_other rels w1 rel Hfresh).
    exists (root w). simpl. rewrite lookup_insert_eq. congruence.
  - assert (rel <> c) as Hne by (intros ->; done).
    apply IH; [done| |done|].
    + intros j Hj. simpl. destruct (decide (rel = j)) as [->|Hne'].
      * rewrite lookup_insert_eq. eauto.
      * rewrite lookup_insert_ne by done. apply Hvalid.
        by apply list_elem_of_further.
    + simpl. by rewrite lookup_insert_ne.
Qed.

(** C7.  With optimizations on but restricted to hypertables, when the hook
    is called for a member of an append relation that is itself a hypertable
    (the main table, which the host meets as the first child of its own
    append relation), it pins the cache, applies the sort transform once for
    each entry of [append_rel_list] whose parent is that table, in list
    order, and releases the cache.  The state it leaves is the one those
    applications produce: every sibling listed under that parent, and with
    them the relation at hand, holds afterwards an output of the transform,
    and when the listed siblings are distinct it is the output for the
    relation the sibling held before the call. *)
Theorem sort_transform_reaches_all_siblings rel rti rte w w0 r e ht :
  previous_set_rel_pathlist invoke_set_rel_pathlist_hook rel rti rte w =
    (Return tt, w0) ->
  extension_loaded w0 = true ->
  guc_disable_optimizations w0 = false ->
  guc_optimize_non_hypertables w0 = false ->
  simple_rel_array (root w0) !! rel = Some r ->
  simple_rte_array (root w0) !! rte = Some e ->
  IS_DUMMY_REL r = false ->
  relid e <> InvalidOid ->
  hypertable_cache_get_entry (hypertable_cache_current w0) (relid e) =
    Some ht ->
  is_append_child r e = true ->
  (forall c, c ∈ children_of (relid e) (append_rel_list (root w0)) ->
             is_Some (simple_rel_array (root w0) !! c)) ->
  exists w',
    timescaledb_set_rel_pathlist invoke_set_rel_pathlist_hook IS_DUMMY_REL
    contain_mutable_functions sort_transform rel rti rte w = (Return tt, w') /\
    w' =
      log EvCacheRelease
        (transform_all sort_transform
           (children_of (relid e) (append_rel_list (root w0)))
           (log EvCachePin w0)) /\
    trace w' =
      trace w0 ++ [EvCachePin] ++
      (EvSortTransform <$> children_of (relid e) (append_rel_list (root w0))) ++
      [EvCacheRelease] /\
    (forall appinfo,
        appinfo ∈ append_rel_list (root w0) ->
        parent_reloid appinfo = relid e ->
        EvSortTransform (child_relid appinfo) ∈ trace w' /\
        exists p r',
          simple_rel_array (root w') !! child_relid appinfo =
            Some (sort_transform p r')) /\
    (NoDup (children_of (relid e) (append_rel_list (root w0))) ->
     forall appinfo r0,
        appinfo ∈ append_rel_list (root w0) ->
        parent_reloid appinfo = relid e ->
        simple_rel_array (root w0) !! child_relid appinfo = Some r0 ->
        exists p,
          simple_rel_array (root w') !! child_relid appinfo =
            Some (sort_transform p r0)).
Proof.
  intros Hprev Hloaded Hdis Hall Hr He Hdummy Hoid Hht Hchild Hvalid.
  set (cs := children_of (relid e) (append_rel_list (root w0))) in *.
  set (w1 := log EvCachePin w0).
  set (w2 := transform_all sort_transform cs w1).
  destruct (transform_all_frame cs w1 Hvalid) as (Ht & Hrte & Hq & Hdom).
  fold w2 in Ht, Hrte, Hq, Hdom.
  destruct (Hdom rel) as [r2 Hr2]; [exists r; exact Hr|].
  assert (is_append_parent r2 e = false) as Hnotparent.
  { unfold is_append_child in Hchild. unfold is_append_parent.
    destruct (bool_decide (inh e = false)) eqn:Hinh;
      [|by rewrite !andb_false_r in Hchild].
    apply bool_decide_eq_true in Hinh.
    rewrite (bool_decide_false (inh e = true)) by (by rewrite Hinh).
    by rewrite andb_false_r. }
  exists (log EvCacheRelease w2).
  assert (trace (log EvCacheRelease w2) =
          trace w0 ++ [EvCachePin] ++ (EvSortTransform <$> cs) ++
            [EvCacheRelease]) as Htrace.
  { simpl. rewrite Ht. simpl. by rewrite <- !app_assoc. }
  assert (forall appinfo,
            appinfo ∈ append_rel_list (root w0) ->
            parent_reloid appinfo = relid e ->
            child_relid appinfo ∈ cs) as Hlisted.
  { intros appinfo Hin Hparent. unfold cs, children_of.
    apply (list_elem_of_fmap_2 child_relid). by apply list_elem_of_filter. }
  split; [|split; [reflexivity|split; [exact Htrace|split]]].
  - rewrite (set_rel_pathlist_stages rel rti rte w w0 r e Hprev Hloaded Hr
               Hdummy He Hoid) by auto.
    cbv zeta. fold w1. rewrite Hht.
    unfold should_optimize_query.
    rewrite bind_bind, bind_gets. cbv beta.
    rewrite bind_bind, bind_gets. cbv beta.
    change (guc_disable_optimizations w1) with (guc_disable_optimizations w0).
    rewrite Hdis, bool_decide_true, orb_true_r by eauto. cbn [negb andb].
    rewrite bind_ret. cbv beta iota. rewrite bind_bind.
    erewrite bind_run; cycle 1.
    { unfold apply_sort_transform. rewrite bind_gets. cbv beta.
      change (guc_optimize_non_hypertables w1)
        with (guc_optimize_non_hypertables w0).
      rewrite Hall. cbv iota. rewrite bind_gets. cbv beta.
      change (root w1) with (root w0). rewrite Hr, He. cbn [deref].
      rewrite !bind_ret. rewrite Hchild.
      apply (foreach_append_rel_eq (relid e) (append_rel_list (root w0)) w1
               Hvalid). }
    fold cs. fold w2.
    erewrite bind_run; cycle 1.
    { apply (apply_constraint_aware_append_skips (Some ht) rel rte w2 r2 e Hr2);
        [|by auto].
      rewrite Hrte. exact He. }
    done.
  - intros appinfo Hin Hparent. split.
    + rewrite Htrace. rewrite !elem_of_app. right. right. left.
      apply list_elem_of_fmap_2. by apply Hlisted.
    + apply (transform_all_applied cs w1 (child_relid appinfo) Hvalid).
      by apply Hlisted.
  - intros Hnodup appinfo r0 Hin Hparent Hr0.
    apply (transform_all_applied_once cs w1 (child_relid appinfo) r0 Hnodup
             Hvalid); [by apply Hlisted|exact Hr0].
Qed.

(** *** More on the path-list hook *)

Lemma bind_inv {A B} (m : M A) (k : A -> M B) w b w' :
  bind m k w = (Return b, w') ->
  exists a w1, m w = (Return a, w1) /\ k a w1 = (Return b, w').
Proof. unfold bind. destruct (m w) as [[a|f] w1]; [eauto|done]. Qed.

Lemma should_optimize_append_state path w res w' :
  should_optimize_append contain_mutable_functions path w = (res, w') ->
  w' = w.
Proof.
  unfold should_optimize_append. rewrite !bind_gets.
  destruct (negb (guc_constraint_aware_append w) || _); [by intros [= _ <-]|].
  rewrite bind_gets.
  destruct (simple_rel_array (root w) !! parent path); by intros [= _ <-].
Qed.

Lemma foreach_path_state h l :
  forall w res w',
    foreach_path contain_mutable_functions h l w = (res, w') -> w' = w.
Proof.
  induction l as [|path rest IH]; intros w res w'; [by intros [= _ <-]|].
  cbn [foreach_path]. unfold bind at 1.
  destruct (match nodeTag path with
            | T_AppendPath | T_MergeAppendPath =>
                optimize <- should_optimize_append contain_mutable_functions path ;;
                if optimize : bool
                then ret (constraint_aware_append_path_create h path)
                else ret path
            | _ => ret path
            end w) as [o w1] eqn:Hhead.
  assert (w1 = w) as ->.
  { destruct (nodeTag path); try (by injection Hhead as _ <-);
      unfold bind in Hhead;
      destruct (should_optimize_append contain_mutable_functions path w)
        as [[[]|f] w2] eqn:Hopt;
      apply should_optimize_append_state in Hopt as ->;
      by injection Hhead as _ <-. }
  destruct o as [path'|f]; [|by intros [= _ <-]].
  unfold bind.
  destruct (foreach_path contain_mutable_functions h rest w) as [[l'|f] w2]
    eqn:Hrest; apply IH in Hrest as ->; by intros [= _ <-].
Qed.

Lemma apply_constraint_aware_append_trace ht rel rte w res w' :
  apply_constraint_aware_append contain_mutable_functions ht rel rte w =
    (res, w') ->
  trace w' = trace w.
Proof.
  unfold apply_constraint_aware_append.
  destruct ht as [h|]; [|by intros [= _ <-]].
  rewrite bind_gets.
  destruct (simple_rel_array (root w) !! rel) as [r|]; [|by intros [= _ <-]].
  cbn [deref]. rewrite bind_ret.
  destruct (simple_rte_array (root w) !! rte) as [e|]; [|by intros [= _ <-]].
  cbn [deref]. rewrite bind_ret.
  destruct (is_append_parent r e && _); [|by intros [= _ <-]].
  unfold bind.
  destruct (foreach_path contain_mutable_functions h (pathlist r) w)
    as [[l'|f] w1] eqn:Hloop; apply foreach_path_state in Hloop as ->;
    by intros [= _ <-].
Qed.

Lemma sort_transform_optimization_trace rel w w' :
  sort_transform_optimization sort_transform rel w = (Return tt, w') ->
  trace w' = trace w ++ [EvSortTransform rel].
Proof.
  unfold sort_transform_optimization. rewrite bind_gets.
  destruct (simple_rel_array (root w) !! rel) as [r|]; [|done].
  cbn [deref]. rewrite bind_ret. by intros [= <-].
Qed.

Lemma foreach_append_rel_trace reloid l :
  forall w w',
    foreach_append_rel sort_transform reloid l w = (Return tt, w') ->
    exists rels, trace w' = trace w ++ (EvSortTransform <$> rels).
Proof.
  induction l as [|appinfo rest IH]; intros w w'.
  { intros [= <-]. exists []. by rewrite app_nil_r. }
  cbn [foreach_append_rel]. intros Hrun.
  apply bind_inv in Hrun as ([] & w1 & Hhead & Hrest).
  apply IH in Hrest as [rels Hrels].
  destruct (bool_decide (parent_reloid appinfo <> reloid)).
  - injection Hhead as <-. by exists rels.
  - apply sort_transform_optimization_trace in Hhead.
    exists (child_relid appinfo :: rels).
    rewrite Hrels, Hhead. by rewrite <- app_assoc.
Qed.

Lemma apply_sort_transform_trace ht rel rte w w' :
  apply_sort_transform sort_transform ht rel rte w = (Return tt, w') ->
  exists rels, trace w' = trace w ++ (EvSortTransform <$> rels).
Proof.
  unfold apply_sort_transform. rewrite bind_gets.
  destruct (guc_optimize_non_hypertables w).
  { intros Hrun. apply sort_transform_optimization_trace in Hrun.
    by exists [rel]. }
  destruct ht as [h|];
    [|intros [= <-]; exists []; by rewrite app_nil_r].
  rewrite bind_gets.
  destruct (simple_rel_array (root w) !! rel) as [r|]; [|done].
  cbn [deref]. rewrite bind_ret.
  destruct (simple_rte_array (root w) !! rte) as [e|]; [|done].
  cbn [deref]. rewrite bind_ret.
  destruct (is_append_child r e).
  - apply foreach_append_rel_trace.
  - intros [= <-]. exists []. by rewrite app_nil_r.
Qed.

(** X3.  On every normal return of the path-list hook the cache handle is
    balanced: after the chained hook the hook has either made no call at all,
    or pinned the cache once, called the sort transform for some relations,
    and released the cache once, as its last call. *)
Theorem set_rel_pathlist_pin_release rel rti rte w w0 w' :
  previous_set_rel_pathlist invoke_set_rel_pathlist_hook rel rti rte w =
    (Return tt, w0) ->
  timescaledb_set_rel_pathlist invoke_set_rel_pathlist_hook IS_DUMMY_REL
    contain_mutable_functions sort_transform rel rti rte w =
    (Return tt, w') ->
  trace w' = trace w0 \/
  exists rels,
    trace w' =
      trace w0 ++ [EvCachePin] ++ (EvSortTransform <$> rels) ++
      [EvCacheRelease].
Proof.
  intros Hprev. unfold timescaledb_set_rel_pathlist.
  rewrite bind_gets. erewrite bind_run; [|exact Hprev].
  unfold extension_is_loaded. rewrite bind_gets.
  destruct (extension_loaded w0); cbn [negb]; [|intros [= <-]; by left].
  rewrite bind_gets.
  destruct (simple_rel_array (root w0) !! rel) as [r|]; [|done].
  cbn [deref]. rewrite bind_ret.
  destruct (IS_DUMMY_REL r); [intros [= <-]; by left|].
  destruct (simple_rte_array (root w0) !! rte) as [e|]; [|done].
  cbn [deref]. rewrite bind_ret.
  destruct (negb (OidIsValid (relid e))); [intros [= <-]; by left|].
  rewrite bind_gets.
  destruct (negb (guc_optimize_non_hypertables w0) && _);
    [intros [= <-]; by left|].
  unfold hypertable_cache_pin. rewrite bind_bind, bind_modify, bind_gets.
  cbv beta. set (w1 := log EvCachePin w0).
  unfold should_optimize_query.
  rewrite bind_bind, bind_gets. cbv beta.
  rewrite bind_bind, bind_gets. cbv beta. rewrite bind_ret. cbv beta.
  intros Hrun. right.
  apply bind_inv in Hrun as ([] & w3 & Hstages & Hrelease).
  injection Hrelease as <-.
  destruct (negb (guc_disable_optimizations w1) && _).
  - apply bind_inv in Hstages as ([] & w2 & Hsort & Hloop).
    apply apply_sort_transform_trace in Hsort as [rels Hsort].
    apply apply_constraint_aware_append_trace in Hloop.
    exists rels. simpl. rewrite Hloop, Hsort. simpl.
    by rewrite <- !app_assoc.
  - injection Hstages as <-. exists []. simpl. by rewrite <- app_assoc.
Qed.

(** X4.  When optimizations are disabled, or when only hypertables are
    optimized and the table of the relation is not one, the hook leaves the
    planner state as the chained hook left it: no sort transform and no
    wrapper; at most it pins and releases the cache. *)
Theorem set_rel_pathlist_without_optimization rel rti rte w w0 r e :
  previous_set_rel_pathlist invoke_set_rel_pathlist_hook rel rti rte w =
    (Return tt, w0) ->
  simple_rel_array (root w0) !! rel = Some r ->
  simple_rte_array (root w0) !! rte = Some e ->
  guc_disable_optimizations w0 = true \/
    (guc_optimize_non_hypertables w0 = false /\
     hypertable_cache_get_entry (hypertable_cache_current w0) (relid e) =
       None) ->
  exists w',
    timescaledb_set_rel_pathlist invoke_set_rel_pathlist_hook IS_DUMMY_REL
      contain_mutable_functions sort_transform rel rti rte w =
      (Return tt, w') /\
    root w' = root w0 /\
    (trace w' = trace w0 \/
     trace w' = trace w0 ++ [EvCachePin; EvCacheRelease]).
Proof.
  intros Hprev Hr He Hno.
  assert (forall w', w' = w0 ->
            root w' = root w0 /\
            (trace w' = trace w0 \/
             trace w' = trace w0 ++ [EvCachePin; EvCacheRelease])) as Hsame.
  { intros w' ->. auto. }
  destruct (extension_loaded w0) eqn:Hloaded; cycle 1.
  { exists w0. split; [|by apply Hsame].
    apply (set_rel_pathlist_returns_early _ _ _ _ _ Hprev). by left. }
  destruct (IS_DUMMY_REL r) eqn:Hdummy.
  { exists w0. split; [|by apply Hsame].
    apply (set_rel_pathlist_returns_early _ _ _ _ _ Hprev).
    right. exists r. auto. }
  destruct (decide (relid e = InvalidOid)) as [Hoid|Hoid].
  { exists w0. split; [|by apply Hsame].
    apply (set_rel_pathlist_returns_early _ _ _ _ _ Hprev).
    right. exists r. split; [done|]. right. exists e. auto. }
  destruct (guc_optimize_non_hypertables w0) eqn:Hall;
    [|destruct (is_append_parent r e) eqn:Hparent;
      [|destruct (is_append_child r e) eqn:Hchild]].
  4: { exists w0. split; [|by apply Hsame].
       apply (set_rel_pathlist_returns_early _ _ _ _ _ Hprev).
       right. exists r. split; [done|]. right. exists e. auto. }
  all: exists (log EvCacheRelease (log EvCachePin w0));
    (split; [|split; [done|right; simpl; by rewrite <- app_assoc]]);
    apply (set_rel_pathlist_not_optimized rel rti rte w w0 r e Hprev Hloaded
             Hr Hdummy He Hoid); auto.
  all: destruct Hno as [?|[Hall' ?]]; auto; congruence.
Qed.

(** X5.  For a dummy relation, for a range table entry that names no table,
    and, when only hypertables are optimized, for a relation that is neither
    an append parent nor a member of an append relation, the hook does what
    the chained hook did and nothing else: the cache is not even pinned. *)
Theorem set_rel_pathlist_ignores_other_relations rel rti rte w w0 r :
  previous_set_rel_pathlist invoke_set_rel_pathlist_hook rel rti rte w =
    (Return tt, w0) ->
  simple_rel_array (root w0) !! rel = Some r ->
  IS_DUMMY_REL r = true \/
  (exists e,
     simple_rte_array (root w0) !! rte = Some e /\
     (relid e = InvalidOid \/
      (guc_optimize_non_hypertables w0 = false /\
       is_append_parent r e = false /\ is_append_child r e = false))) ->
  timescaledb_set_rel_pathlist invoke_set_rel_pathlist_hook IS_DUMMY_REL
    contain_mutable_functions sort_transform rel rti rte w = (Return tt, w0).
Proof.
  intros Hprev Hr Hgate.
  unfold timescaledb_set_rel_pathlist. rewrite bind_gets. cbv beta.
  erewrite bind_run; [|exact Hprev].
  unfold extension_is_loaded. rewrite bind_gets. cbv beta.
  destruct (extension_loaded w0); [|done]. cbn [negb].
  rewrite bind_gets. cbv beta. rewrite Hr. cbn [deref]. rewrite bind_ret.
  destruct Hgate as [->|(e & He & Hgate)]; [done|].
  destruct (IS_DUMMY_REL r); [done|].
  rewrite He. cbn [deref]. rewrite bind_ret.
  destruct Hgate as [->|(Hall & Hparent & Hchild)]; [done|].
  destruct (negb (OidIsValid (relid e))); [done|].
  rewrite bind_gets. cbv beta. by rewrite Hall, Hparent, Hchild.
Qed.

(** X6.  When all tables are optimized, a table that is not a hypertable gets
    the sort transform, once and on the relation at hand, and no wrapper:
    the hook pins the cache, rewrites the relation with the transform and
    releases the cache. *)
Theorem sort_transform_on_plain_table rel rti rte w w0 r e :
  previous_set_rel_pathlist invoke_set_rel_pathlist_hook rel rti rte w =
    (Return tt, w0) ->
  extension_loaded w0 = true ->
  guc_disable_optimizations w0 = false ->
  guc_optimize_non_hypertables w0 = true ->
  simple_rel_array (root w0) !! rel = Some r ->
  IS_DUMMY_REL r = false ->
  simple_rte_array (root w0) !! rte = Some e ->
  relid e <> InvalidOid ->
  hypertable_cache_get_entry (hypertable_cache_current w0) (relid e) = None ->
  timescaledb_set_rel_pathlist invoke_set_rel_pathlist_hook IS_DUMMY_REL
    contain_mutable_functions sort_transform rel rti rte w =
    (Return tt,
     log EvCacheRelease
       (log (EvSortTransform rel)
          (set_root (set_rel rel (sort_transform (root w0) r) (root w0))
             (log EvCachePin w0)))).
Proof.
  intros Hprev Hloaded Hdis Hall Hr Hdummy He Hoid Hht.
  apply (set_rel_pathlist_from_path_loop rel rti rte w None
           (log (EvSortTransform rel)
              (set_root (set_rel rel (sort_transform (root w0) r) (root w0))
                 (log EvCachePin w0)))); [|done].
  exists w0, r, e. split_and!; auto; try (by rewrite Hht).
  unfold apply_sort_transform. rewrite bind_gets. cbv beta.
  change (guc_optimize_non_hypertables (log EvCachePin w0))
    with (guc_optimize_non_hypertables w0).
  rewrite Hall.
  exact (sort_transform_optimization_eq rel r (log EvCachePin w0) Hr).
Qed.

Lemma foreach_path_switched_off h l w :
  guc_constraint_aware_append w = false \/
    constraint_exclusion w = CONSTRAINT_EXCLUSION_OFF ->
  foreach_path contain_mutable_functions h l w = (Return l, w).
Proof.
  intros Hoff. induction l as [|path rest IH]; [done|].
  cbn [foreach_path]. unfold bind at 1.
  assert (should_optimize_append contain_mutable_functions path w =
          (Return false, w)) as Hopt.
  { unfold should_optimize_append. rewrite !bind_gets.
    destruct Hoff as [-> | ->]; [done|]. by rewrite orb_true_r. }
  assert (match nodeTag path with
          | T_AppendPath | T_MergeAppendPath =>
              optimize <- should_optimize_append contain_mutable_functions path ;;
              if optimize : bool
              then ret (constraint_aware_append_path_create h path)
              else ret path
          | _ => ret path
          end w = (Return path, w)) as ->.
  { destruct (nodeTag path); try done; unfold bind; by rewrite Hopt. }
  unfold bind. by rewrite IH.
Qed.

Lemma set_rel_same rel r p :
  simple_rel_array p !! rel = Some r ->
  set_rel rel (set_pathlist (pathlist r) r) p = p.
Proof.
  intros Hr. destruct p as [q rels rtes apps], r as [k t b l].
  unfold set_rel, set_pathlist. simpl in *. f_equal. by apply insert_id.
Qed.

Lemma set_root_same w : set_root (root w) w = w.
Proof. by destruct w. Qed.

(** X7.  With constraint-aware append switched off, or with constraint
    exclusion off, a call of the hook that comes to its path loop wraps no
    path, whatever the paths and the restriction clauses are: the state after
    the sort transform stage is only followed by the release. *)
Theorem no_wrapper_when_switched_off rel rti rte w ht w1 r e :
  reaches_path_loop invoke_set_rel_pathlist_hook IS_DUMMY_REL sort_transform
    rel rti rte w ht w1 ->
  simple_rel_array (root w1) !! rel = Some r ->
  simple_rte_array (root w1) !! rte = Some e ->
  guc_constraint_aware_append w1 = false \/
    constraint_exclusion w1 = CONSTRAINT_EXCLUSION_OFF ->
  timescaledb_set_rel_pathlist invoke_set_rel_pathlist_hook IS_DUMMY_REL
    contain_mutable_functions sort_transform rel rti rte w =
    (Return tt, log EvCacheRelease w1).
Proof.
  intros Hreach Hr He Hoff.
  apply (set_rel_pathlist_from_path_loop rel rti rte w ht w1 w1 Hreach).
  unfold apply_constraint_aware_append. destruct ht as [h|]; [|done].
  rewrite bind_gets. cbv beta. rewrite Hr, He. cbn [deref].
  rewrite !bind_ret.
  destruct (is_append_parent r e && _); [|done].
  unfold bind. rewrite (foreach_path_switched_off h (pathlist r) w1 Hoff).
  unfold modify. by rewrite (set_rel_same rel r (root w1) Hr), set_root_same.
Qed.

Lemma append_eligible_wrapper w r h path :
  append_eligible contain_mutable_functions w r
    (constraint_aware_append_path_create h path) = false.
Proof. reflexivity. Qed.

(** X8.  Running the path loop a second time changes nothing: a path that
    was wrapped is a custom path and is not wrapped again, and a path that
    was left alone is left alone again. *)
Theorem path_loop_idempotent ht rel rte w r e :
  simple_rel_array (root w) !! rel = Some r ->
  simple_rte_array (root w) !! rte = Some e ->
  Forall (fun path => parent path = rel) (pathlist r) ->
  (apply_constraint_aware_append contain_mutable_functions ht rel rte ;;
   apply_constraint_aware_append contain_mutable_functions ht rel rte) w =
  apply_constraint_aware_append contain_mutable_functions ht rel rte w.
Proof.
  intros Hr He Hp.
  rewrite (apply_constraint_aware_append_eq ht rel rte w r e Hr He Hp).
  destruct ht as [h|]; cycle 1.
  { erewrite bind_run; [|reflexivity]. done. }
  destruct (is_append_parent r e && _) eqn:Hgo; cycle 1.
  { erewrite bind_run; [|by apply (apply_constraint_aware_append_skips
                                       (Some h) rel rte w r e Hr He);
                            apply andb_false_iff in Hgo as [?|Hres];
                            [auto|right; right; by apply Z.eqb_neq in Hres]].
    apply (apply_constraint_aware_append_skips (Some h) rel rte w r e Hr He).
    apply andb_false_iff in Hgo as [?|Hres]; [auto|].
    right; right. intros Heq. by rewrite Heq in Hres. }
  set (wrap := fun path =>
                 if append_eligible contain_mutable_functions w r path
                 then constraint_aware_append_path_create h path
                 else path).
  set (r1 := set_pathlist (wrap <$> pathlist r) r).
  set (w1 := set_root (set_rel rel r1 (root w)) w).
  assert (simple_rel_array (root w1) !! rel = Some r1) as Hr1
    by apply lookup_insert_eq.
  assert (Forall (fun path => parent path = rel) (pathlist r1)) as Hp1.
  { simpl. apply Forall_fmap. eapply Forall_impl; [exact Hp|].
    intros path Hpath. unfold wrap. simpl.
    by destruct (append_eligible _ _ _ _). }
  assert ((fun path =>
             if append_eligible contain_mutable_functions w1 r1 path
             then constraint_aware_append_path_create h path
             else path) <$> pathlist r1 = pathlist r1) as Hfix.
  { simpl. rewrite <- list_fmap_compose.
    apply list_fmap_ext. intros i path _. simpl. unfold wrap.
    destruct (append_eligible contain_mutable_functions w r path) eqn:Hel.
    - change (append_eligible contain_mutable_functions w1 r1 ?p)
        with (append_eligible contain_mutable_functions w r p).
      by rewrite append_eligible_wrapper.
    - change (append_eligible contain_mutable_functions w1 r1 ?p)
        with (append_eligible contain_mutable_functions w r p).
      by rewrite Hel. }
  assert (apply_constraint_aware_append contain_mutable_functions (Some h)
            rel rte w = (Return tt, w1)) as Hfirst.
  { rewrite (apply_constraint_aware_append_eq _ rel rte w r e Hr He Hp).
    by rewrite Hgo. }
  erewrite bind_run; [|exact Hfirst].
  rewrite (apply_constraint_aware_append_eq (Some h) rel rte w1 r1 e Hr1 He Hp1).
  change (is_append_parent r1 e) with (is_append_parent r e).
  change (parse (root w1)) with (parse (root w)).
  rewrite Hgo, Hfix. f_equal.
  rewrite (set_rel_same rel r1 (root w1) Hr1). apply set_root_same.
Qed.

(** X9.  With optimizations on but restricted to hypertables, a call of the
    hook for a member relation whose table is a hypertable only applies the
    sort transform to the relations listed under that table: the state it
    leaves is the one those transforms produce, between the pin and the
    release, and no path of any relation is wrapped. *)
Theorem member_relation_only_transformed rel rti rte w w0 r e ht :
  previous_set_rel_pathlist invoke_set_rel_pathlist_hook rel rti rte w =
    (Return tt, w0) ->
  extension_loaded w0 = true ->
  guc_disable_optimizations w0 = false ->
  guc_optimize_non_hypertables w0 = false ->
  simple_rel_array (root w0) !! rel = Some r ->
  simple_rte_array (root w0) !! rte = Some e ->
  IS_DUMMY_REL r = false ->
  relid e <> InvalidOid ->
  hypertable_cache_get_entry (hypertable_cache_current w0) (relid e) =
    Some ht ->
  is_append_child r e = true ->
  (forall c, c ∈ children_of (relid e) (append_rel_list (root w0)) ->
             is_Some (simple_rel_array (root w0) !! c)) ->
  timescaledb_set_rel_pathlist invoke_set_rel_pathlist_hook IS_DUMMY_REL
    contain_mutable_functions sort_transform rel rti rte w =
    (Return tt,
     log EvCacheRelease
       (transform_all sort_transform
          (children_of (relid e) (append_rel_list (root w0)))
          (log EvCachePin w0))).
Proof.
  intros Hprev Hloaded Hdis Hall Hr He Hdummy Hoid Hht Hchild Hvalid.
  set (cs := children_of (relid e) (append_rel_list (root w0))) in *.
  set (w1 := log EvCachePin w0).
  destruct (transform_all_frame cs w1 Hvalid) as (_ & Hrte & _ & Hdom).
  destruct (Hdom rel) as [r2 Hr2]; [exists r; exact Hr|].
  apply (set_rel_pathlist_from_path_loop rel rti rte w (Some ht)
           (transform_all sort_transform cs w1)).
  - exists w0, r, e. split_and!; auto; try (by rewrite Hht).
    unfold apply_sort_transform. rewrite bind_gets. cbv beta.
    change (guc_optimize_non_hypertables (log EvCachePin w0))
      with (guc_optimize_non_hypertables w0).
    rewrite Hall. cbv iota. rewrite bind_gets. cbv beta.
    change (root (log EvCachePin w0)) with (root w0).
    rewrite Hr, He. cbn [deref]. rewrite !bind_ret. rewrite Hchild.
    exact (foreach_append_rel_eq (relid e) (append_rel_list (root w0)) w1
             Hvalid).
  - apply (apply_constraint_aware_append_skips (Some ht) rel rte _ r2 e Hr2).
    + rewrite Hrte. exact He.
    + right; left.
      unfold is_append_child in Hchild. unfold is_append_parent.
      destruct (bool_decide (inh e = false)) eqn:Hinh;
        [|by rewrite !andb_false_r in Hchild].
      apply bool_decide_eq_true in Hinh.
      rewrite (bool_decide_false (inh e = true)) by (by rewrite Hinh).
      by rewrite andb_false_r.
Qed.

(** X10.  [_planner_init] run twice saves this extension's own functions as
    the previous hooks, so that [_planner_fini] no longer puts back the
    values from before the first [_planner_init]: whatever they were, both
    hook variables still hold this extension's functions afterwards, chained
    to themselves. *)
Theorem planner_init_twice_not_undone w :
  let '(res, w') := (_planner_init ;; _planner_init ;; _planner_fini) w in
  res = Return tt /\
  planner_hook w' = Some timescaledb_planner_fn /\
  set_rel_pathlist_hook w' = Some timescaledb_set_rel_pathlist_fn /\
  prev_planner_hook w' = Some timescaledb_planner_fn /\
  prev_set_rel_pathlist_hook w' = Some timescaledb_set_rel_pathlist_fn.
Proof. by destruct w. Qed.

End PlannerFacts.

(** ** The statements at the example inputs *)

Import Examples.

(** UPDATE conditions: nothing is rewritten although [conditions] is a
    hypertable. *)
Lemma walker_leaves_non_insert_witness :
  modifytable_plan_walker (walker_ctx update_query) update_conditions =
    (update_conditions, Return tt).
Proof.
  apply (walker_leaves_non_insert (walker_ctx update_query) CMD_UPDATE
           [1%Z] [seq_scan]).
  discriminate.
Defined.

(** INSERT INTO devices, even with ON CONFLICT ON CONSTRAINT. *)
Lemma walker_leaves_insert_without_hypertable_witness :
  modifytable_plan_walker (walker_ctx insert_on_constraint_query) insert_devices =
    (insert_devices, Return tt).
Proof.
  apply (walker_leaves_insert_without_hypertable
           (walker_ctx insert_on_constraint_query) [2%Z] [values_scan]).
  intros [|i] subplan rti Hp Hr; [|destruct i; discriminate].
  injection Hr as <-. exists (table_rte devices_oid false).
  split; reflexivity.
Defined.

(** INSERT INTO conditions ... ON CONFLICT ON CONSTRAINT ...: the second pair
    names the hypertable. *)
Lemma walker_rejects_conflict_constraint_witness :
  modifytable_plan_walker (walker_ctx insert_on_constraint_query) insert_both =
    (insert_both,
     Abort (ERROR
       {| sqlerrcode := ERRCODE_FEATURE_NOT_SUPPORTED;
          message := "Hypertables do not support ON CONFLICT statements that reference constraints";
          hint := "Use column names to infer indexes instead." |})).
Proof.
  apply (walker_rejects_conflict_constraint
           (walker_ctx insert_on_constraint_query) [2%Z; 1%Z]
           [result_plan; values_scan] 1 values_scan 1%Z
           (table_rte conditions_oid false) conditions).
  - exists {| action := ONCONFLICT_NOTHING; constraint := 16390 |}.
    split; [reflexivity|discriminate].
  - intros [|[|i]] subplan rti Hp Hr; try discriminate;
      injection Hr as <-; eexists; reflexivity.
  - reflexivity.
  - reflexivity.
  - reflexivity.
  - reflexivity.
Defined.

(** The same INSERT without the conflict clause: the slot of [conditions] gets
    the chunk dispatch node, the slot of [devices] keeps its subplan, and the
    node is wrapped. *)
Lemma walker_rewrites_insert_on_hypertable_witness :
  modifytable_plan_walker (walker_ctx insert_query) insert_both =
    (HypertableInsert
       (ModifyTable CMD_INSERT [2%Z; 1%Z]
          [result_plan; ChunkDispatch values_scan 1 conditions_oid insert_query]),
     Return tt).
Proof.
  destruct (walker_rewrites_insert_on_hypertable
              (walker_ctx insert_query) [2%Z; 1%Z] [result_plan; values_scan])
    as (plans' & Hlen & Hpair & _ & Hwrap & _).
  - intros (oc & Hoc & _). discriminate.
  - intros [|[|i]] subplan rti Hp Hr; try discriminate;
      injection Hr as <-; eexists; reflexivity.
  - unfold insert_both. rewrite Hwrap.
    + pose proof (Hpair 0%nat result_plan 2%Z (table_rte devices_oid false)
                    eq_refl eq_refl eq_refl) as H0.
      pose proof (Hpair 1%nat values_scan 1%Z (table_rte conditions_oid false)
                    eq_refl eq_refl eq_refl) as H1.
      destruct plans' as [|a [|b [|c rest]]]; try discriminate.
      injection H0 as ->. injection H1 as ->. reflexivity.
    + exists 1%nat, values_scan, 1%Z, (table_rte conditions_oid false), conditions.
      repeat split; reflexivity.
Defined.

(** C1, at an input.  INSERT INTO conditions ... ON CONFLICT ON CONSTRAINT
    with the extension loaded: the hook leaves with the error and with one pin
    and no release recorded. *)
Lemma planner_error_leaves_cache_pinned :
  let '(r, w') :=
    timescaledb_planner no_planner_hook
      (planner_giving (stmt_of insert_conditions))
      insert_on_constraint_query 0 [] (world true empty_root) in
  r = Abort (ERROR on_conflict_constraint_error) /\
  trace w' = [EvCachePin] /\
  occurrences EvCachePin (trace w') = 1 /\
  occurrences EvCacheRelease (trace w') = 0.
Proof. vm_compute. repeat split; reflexivity. Qed.

(** With the extension not loaded the plan of the standard planner comes back
    untouched and the path list is not read. *)
Lemma hooks_pass_through_when_not_loaded_witness :
  timescaledb_planner no_planner_hook
    (planner_giving (stmt_of insert_conditions)) insert_query 0 []
    (world false (scan_root CMD_SELECT 0)) =
    previous_planner no_planner_hook
      (planner_giving (stmt_of insert_conditions)) insert_query 0 []
      (world false (scan_root CMD_SELECT 0)) /\
  timescaledb_set_rel_pathlist no_set_rel_pathlist_hook never_dummy calls_now
    add_index_path 1 1 1 (world false (scan_root CMD_SELECT 0)) =
    previous_set_rel_pathlist no_set_rel_pathlist_hook 1 1 1
      (world false (scan_root CMD_SELECT 0)).
Proof.
  apply (hooks_pass_through_when_not_loaded no_planner_hook
           (planner_giving (stmt_of insert_conditions))
           no_set_rel_pathlist_hook never_dummy calls_now add_index_path
           insert_query 0%Z [] 1%Z 1%Z 1%Z
           (world false (scan_root CMD_SELECT 0)));
    reflexivity.
Defined.

(** SELECT ... FROM conditions WHERE time > now(): the hook at the append
    parent. *)
Lemma wrapper_only_on_eligible_paths_witness :
  exists w' r',
    timescaledb_set_rel_pathlist no_set_rel_pathlist_hook never_dummy
      calls_now add_index_path 1 1 1 (world true (scan_root CMD_SELECT 0)) =
      (Return tt, w') /\
    simple_rel_array (root w') !! 1%Z = Some r' /\
    (forall other, other <> 1%Z ->
       simple_rel_array (root w') !! other =
         simple_rel_array
           (root (log EvCachePin (world true (scan_root CMD_SELECT 0))))
           !! other) /\
    Forall2
      (fun path path' =>
         path' = path \/
         exists h,
           Some conditions = Some h /\
           path' = constraint_aware_append_path_create h path /\
           guc_constraint_aware_append
             (log EvCachePin (world true (scan_root CMD_SELECT 0))) = true /\
           constraint_exclusion
             (log EvCachePin (world true (scan_root CMD_SELECT 0))) <>
             CONSTRAINT_EXCLUSION_OFF /\
           mutable_restriction calls_now parent_rel /\
           is_append_tag (nodeTag path) /\
           is_append_parent parent_rel (table_rte conditions_oid true) = true)
      (pathlist parent_rel) (pathlist r').
Proof.
  apply (wrapper_only_on_eligible_paths no_set_rel_pathlist_hook never_dummy
           calls_now add_index_path 1%Z 1%Z 1%Z
           (world true (scan_root CMD_SELECT 0)) (Some conditions)
           (log EvCachePin (world true (scan_root CMD_SELECT 0)))
           parent_rel (table_rte conditions_oid true)).
  - exists (world true (scan_root CMD_SELECT 0)), parent_rel,
      (table_rte conditions_oid true).
    repeat split; try reflexivity.
    + discriminate.
    + right. left. reflexivity.
    + right. eexists. reflexivity.
  - reflexivity.
  - reflexivity.
  - repeat constructor.
Defined.

(** C4, at an input.  UPDATE devices ... FROM conditions WHERE time > now():
    relation 1 is the append parent of the hypertable [conditions], the result
    relation is relation 5, and the Append path of relation 1 passes the test
    of the path loop; the hook leaves relation 1 as it was.  In the SELECT
    over the same tables the hook wraps that path. *)
Lemma other_relation_of_write_statement_not_wrapped :
  let w := world true (scan_root CMD_UPDATE 5) in
  let e := table_rte conditions_oid true in
  simple_rel_array (root w) !! 1%Z = Some parent_rel /\
  simple_rte_array (root w) !! 1%Z = Some e /\
  is_append_parent parent_rel e = true /\
  hypertable_cache_get_entry (hypertable_cache_current w) (relid e) =
    Some conditions /\
  resultRelation (parse (root w)) = 5%Z /\
  pathlist parent_rel !! 0%nat = Some append_path /\
  append_eligible calls_now w parent_rel append_path = true /\
  (let '(res, w') :=
     timescaledb_set_rel_pathlist no_set_rel_pathlist_hook never_dummy
       calls_now add_index_path 1 1 1 w in
   res = Return tt /\
   simple_rel_array (root w') !! 1%Z = Some parent_rel) /\
  (let '(res, w') :=
     timescaledb_set_rel_pathlist no_set_rel_pathlist_hook never_dummy
       calls_now add_index_path 1 1 1 (world true (scan_root CMD_SELECT 0)) in
   res = Return tt /\
   pathlist <$> simple_rel_array (root w') !! 1%Z =
     Some [ConstraintAwareAppendPath conditions append_path;
           result_path;
           ConstraintAwareAppendPath conditions merge_append_path]).
Proof. vm_compute. repeat split; reflexivity. Qed.

Lemma wrapper_needs_statement_without_result_relation_witness :
  timescaledb_set_rel_pathlist no_set_rel_pathlist_hook never_dummy
    calls_now add_index_path 1 1 1 (world true (scan_root CMD_UPDATE 5)) =
    (Return tt,
     log EvCacheRelease
       (log EvCachePin (world true (scan_root CMD_UPDATE 5)))).
Proof.
  apply (wrapper_needs_statement_without_result_relation
           no_set_rel_pathlist_hook never_dummy calls_now add_index_path
           1%Z 1%Z 1%Z (world true (scan_root CMD_UPDATE 5)) conditions
           (log EvCachePin (world true (scan_root CMD_UPDATE 5)))
           parent_rel (table_rte conditions_oid true)).
  - exists (world true (scan_root CMD_UPDATE 5)), parent_rel,
      (table_rte conditions_oid true).
    repeat split; try reflexivity.
    + discriminate.
    + right. left. reflexivity.
    + right. eexists. reflexivity.
  - reflexivity.
  - reflexivity.
  - reflexivity.
  - repeat constructor.
  - discriminate.
Defined.

(** Three siblings under one parent: the hook, called for relation 2 (the
    main table as a member of its own append relation), applies the transform
    to the relations 2, 3 and 4, each of which holds the added index path
    afterwards. *)
Lemma sort_transform_reaches_all_siblings_witness :
  exists w',
    timescaledb_set_rel_pathlist no_set_rel_pathlist_hook never_dummy
      calls_now add_index_path 2 2 2 (world true (scan_root CMD_SELECT 0)) =
      (Return tt, w') /\
    trace w' =
      [EvCachePin; EvSortTransform 2; EvSortTransform 3; EvSortTransform 4;
       EvCacheRelease] /\
    pathlist <$> simple_rel_array (root w') !! 2%Z =
      Some [HostPath T_Path 2 10; HostPath T_IndexPath 2 5] /\
    pathlist <$> simple_rel_array (root w') !! 3%Z =
      Some [HostPath T_Path 3 10; HostPath T_IndexPath 3 5] /\
    pathlist <$> simple_rel_array (root w') !! 4%Z =
      Some [HostPath T_Path 4 10; HostPath T_IndexPath 4 5].
Proof.
  destruct (sort_transform_reaches_all_siblings no_set_rel_pathlist_hook
              never_dummy calls_now add_index_path 2%Z 2%Z 2%Z
              (world true (scan_root CMD_SELECT 0))
              (world true (scan_root CMD_SELECT 0))
              (member_rel 2) (table_rte conditions_oid false) conditions)
    as (w' & Hrun & Hstate & Htrace & _); try reflexivity.
  - discriminate.
  - intros c Hc.
    change (c ∈ [2%Z; 3%Z; 4%Z]) in Hc.
    rewrite !elem_of_cons in Hc.
    destruct Hc as [->|[->|[->|Hc]]]; [eexists; reflexivity..|].
    by apply elem_of_nil in Hc.
  - exists w'. split; [exact Hrun|].
    split; [rewrite Htrace; reflexivity|].
    rewrite Hstate. repeat split; reflexivity.
Defined.

(** ** The further statements at the example inputs *)

Lemma walker_only_error_witness :
  on_conflict_constraint_error = on_conflict_constraint_error /\
  names_conflict_constraint (ctx_parse (walker_ctx insert_on_constraint_query)) /\
  exists resultRelations plans i subplan rti rte ht,
    insert_both = ModifyTable CMD_INSERT resultRelations plans /\
    plans !! i = Some subplan /\ resultRelations !! i = Some rti /\
    rt_fetch rti (ctx_rtable (walker_ctx insert_on_constraint_query)) =
      Some rte /\
    hypertable_cache_get_entry
      (ctx_hcache (walker_ctx insert_on_constraint_query)) (relid rte) =
      Some ht.
Proof.
  apply (walker_only_error (walker_ctx insert_on_constraint_query) insert_both
           on_conflict_constraint_error).
  reflexivity.
Defined.

(** SELECT ... FROM conditions: the call for the append parent. *)
Lemma set_rel_pathlist_pin_release_witness :
  trace
    (timescaledb_set_rel_pathlist no_set_rel_pathlist_hook never_dummy
       calls_now add_index_path 1 1 1
       (world true (scan_root CMD_SELECT 0))).2 =
    trace (world true (scan_root CMD_SELECT 0)) \/
  exists rels,
    trace
      (timescaledb_set_rel_pathlist no_set_rel_pathlist_hook never_dummy
         calls_now add_index_path 1 1 1
         (world true (scan_root CMD_SELECT 0))).2 =
      trace (world true (scan_root CMD_SELECT 0)) ++ [EvCachePin] ++
      (EvSortTransform <$> rels) ++ [EvCacheRelease].
Proof.
  apply (set_rel_pathlist_pin_release no_set_rel_pathlist_hook never_dummy
           calls_now add_index_path 1%Z 1%Z 1%Z
           (world true (scan_root CMD_SELECT 0))
           (world true (scan_root CMD_SELECT 0))).
  - reflexivity.
  - vm_compute. reflexivity.
Defined.

(** The call for relation 3, a chunk: its table is not a hypertable. *)
Lemma set_rel_pathlist_without_optimization_witness :
  exists w',
    timescaledb_set_rel_pathlist no_set_rel_pathlist_hook never_dummy
      calls_now add_index_path 3 3 3 (world true (scan_root CMD_SELECT 0)) =
      (Return tt, w') /\
    root w' = root (world true (scan_root CMD_SELECT 0)) /\
    (trace w' = trace (world true (scan_root CMD_SELECT 0)) \/
     trace w' =
       trace (world true (scan_root CMD_SELECT 0)) ++
       [EvCachePin; EvCacheRelease]).
Proof.
  apply (set_rel_pathlist_without_optimization no_set_rel_pathlist_hook
           never_dummy calls_now add_index_path 3%Z 3%Z 3%Z
           (world true (scan_root CMD_SELECT 0))
           (world true (scan_root CMD_SELECT 0))
           (member_rel 3) (table_rte 16385 false)).
  - reflexivity.
  - reflexivity.
  - reflexivity.
  - right. split; reflexivity.
Defined.

(** The call for relation 5, the plain table [devices]. *)
Lemma set_rel_pathlist_ignores_other_relations_witness :
  timescaledb_set_rel_pathlist no_set_rel_pathlist_hook never_dummy
    calls_now add_index_path 5 5 5 (world true (scan_root CMD_SELECT 0)) =
    (Return tt, world true (scan_root CMD_SELECT 0)).
Proof.
  apply (set_rel_pathlist_ignores_other_relations no_set_rel_pathlist_hook
           never_dummy calls_now add_index_path 5%Z 5%Z 5%Z
           (world true (scan_root CMD_SELECT 0))
           (world true (scan_root CMD_SELECT 0)) devices_rel).
  - reflexivity.
  - reflexivity.
  - right. exists (table_rte devices_oid false).
    split; [reflexivity|]. right. repeat split; reflexivity.
Defined.

(** The same call when all tables are optimized. *)
Lemma sort_transform_on_plain_table_witness :
  timescaledb_set_rel_pathlist no_set_rel_pathlist_hook never_dummy
    calls_now add_index_path 5 5 5
    (world_with true true (scan_root CMD_SELECT 0)) =
    (Return tt,
     log EvCacheRelease
       (log (EvSortTransform 5)
          (set_root
             (set_rel 5
                (add_index_path
                   (root (world_with true true (scan_root CMD_SELECT 0)))
                   devices_rel)
                (root (world_with true true (scan_root CMD_SELECT 0))))
             (log EvCachePin
                (world_with true true (scan_root CMD_SELECT 0)))))).
Proof.
  apply (sort_transform_on_plain_table no_set_rel_pathlist_hook never_dummy
           calls_now add_index_path 5%Z 5%Z 5%Z
           (world_with true true (scan_root CMD_SELECT 0))
           (world_with true true (scan_root CMD_SELECT 0))
           devices_rel (table_rte devices_oid false));
    try reflexivity.
  discriminate.
Defined.

(** SELECT ... FROM conditions WHERE time > now() with constraint-aware
    append switched off. *)
Lemma no_wrapper_when_switched_off_witness :
  timescaledb_set_rel_pathlist no_set_rel_pathlist_hook never_dummy
    calls_now add_index_path 1 1 1
    (world_with false false (scan_root CMD_SELECT 0)) =
    (Return tt,
     log EvCacheRelease
       (log EvCachePin (world_with false false (scan_root CMD_SELECT 0)))).
Proof.
  apply (no_wrapper_when_switched_off no_set_rel_pathlist_hook never_dummy
           calls_now add_index_path 1%Z 1%Z 1%Z
           (world_with false false (scan_root CMD_SELECT 0))
           (Some conditions)
           (log EvCachePin (world_with false false (scan_root CMD_SELECT 0)))
           parent_rel (table_rte conditions_oid true)).
  - exists (world_with false false (scan_root CMD_SELECT 0)), parent_rel,
      (table_rte conditions_oid true).
    repeat split; try reflexivity.
    + discriminate.
    + right. left. reflexivity.
    + right. eexists. reflexivity.
  - reflexivity.
  - reflexivity.
  - left. reflexivity.
Defined.

Lemma path_loop_idempotent_witness :
  (apply_constraint_aware_append calls_now (Some conditions) 1 1 ;;
   apply_constraint_aware_append calls_now (Some conditions) 1 1)
    (world true (scan_root CMD_SELECT 0)) =
  apply_constraint_aware_append calls_now (Some conditions) 1 1
    (world true (scan_root CMD_SELECT 0)).
Proof.
  apply (path_loop_idempotent calls_now (Some conditions) 1%Z 1%Z
           (world true (scan_root CMD_SELECT 0)) parent_rel
           (table_rte conditions_oid true)).
  - reflexivity.
  - reflexivity.
  - repeat constructor.
Defined.

(** The call for relation 2, the main table as a member of its own append
    relation. *)
Lemma member_relation_only_transformed_witness :
  timescaledb_set_rel_pathlist no_set_rel_pathlist_hook never_dummy
    calls_now add_index_path 2 2 2 (world true (scan_root CMD_SELECT 0)) =
    (Return tt,
     log EvCacheRelease
       (transform_all add_index_path
          (children_of (relid (table_rte conditions_oid false))
             (append_rel_list (root (world true (scan_root CMD_SELECT 0)))))
          (log EvCachePin (world true (scan_root CMD_SELECT 0))))).
Proof.
  apply (member_relation_only_transformed no_set_rel_pathlist_hook
           never_dummy calls_now add_index_path 2%Z 2%Z 2%Z
           (world true (scan_root CMD_SELECT 0))
           (world true (scan_root CMD_SELECT 0))
           (member_rel 2) (table_rte conditions_oid false) conditions);
    try reflexivity.
  - discriminate.
  - intros c Hc.
    change (c ∈ [2%Z; 3%Z; 4%Z]) in Hc.
    rewrite !elem_of_cons in Hc.
    destruct Hc as [->|[->|[->|Hc]]]; [eexists; reflexivity..|].
    by apply elem_of_nil in Hc.
Defined.
